(** * Idea-Hub: the [ai-ideas] edge function

    A shallow embedding of the request handler of the AI-facing idea
    endpoint (sanitizeMarkdown, validateIdeaData, authenticateApiKey,
    checkRateLimit and the [serve] callback), followed by the properties
    of the handler that the specification states.

    Conventions of the embedding.
    - A JavaScript string is the list of its UTF-16 code units ([jstring]);
      [.length] is the length of that list.
    - A value produced by [JSON.parse] is a [json]; an object is the finite
      map of its own properties (the order of the keys, which only shows in
      the serialised text, is not kept); a property read that yields
      [undefined] is [None].
    - A function that may [throw] returns an [exn]; the handler itself runs
      in a small state-and-exception monad, the state being what lives
      outside the function between two requests (the [ideas] table and the
      counters of the rate limiter).
    - The [ideas] table is the list of its rows.  The calls that name one
      row ([select ... single], [insert ... single], [update ... single]) are
      written out: a row is selected by the equality filters, [single]
      reports an error unless exactly one row comes back, and a write that
      the table refuses changes nothing.  What the table decides on its own
      (the defaults of the columns, its types and constraints, the answer to
      a collection query with its order and range) and the two stored
      procedures are variables of the sections, as is the coercion of the
      JavaScript runtime that the validator only reaches on a title that is
      an object: every theorem holds for all of them.  Column triggers such
      as the refresh of [updated_at] are not part of the model. *)

From Stdlib Require Import ZArith NArith QArith.QArith_base Lia.
From stdpp Require Import base option list strings gmap.

Local Open Scope Z_scope.

(* ================================================================== *)
(** ** JavaScript strings *)

Module JStr.

(** A string is a sequence of 16-bit code units. *)
Definition jstring := list N.

(** An ASCII literal of the source, as code units. *)
Fixpoint lit (s : string) : jstring :=
  match s with
  | EmptyString => []
  | String a s' => Ascii.N_of_ascii a :: lit s'
  end.

(** [a === b] on strings *)
Definition eqb (a b : jstring) : bool := bool_decide (a = b).

Definition len (s : jstring) : Z := Z.of_nat (length s).

(** WhiteSpace and LineTerminator code units, the set stripped by
    [String.prototype.trim] and skipped by [parseInt]. *)
Definition is_space (c : N) : bool :=
  ((9 <=? c) && (c <=? 13) || (c =? 32) || (c =? 160) || (c =? 5760)
   || (8192 <=? c) && (c <=? 8202) || (c =? 8232) || (c =? 8233)
   || (c =? 8239) || (c =? 8287) || (c =? 12288) || (c =? 65279))%N.

Fixpoint trim_start (s : jstring) : jstring :=
  match s with
  | c :: t => if is_space c then trim_start t else s
  | [] => []
  end.

Definition trim (s : jstring) : jstring :=
  rev (trim_start (rev (trim_start s))).

(** Canonicalisation of a code unit under the [i] flag (no [u] flag), as far
    as a comparison with an ASCII pattern character can observe it: a
    code unit above 127 never canonicalises to an ASCII one. *)
Definition canon (c : N) : N :=
  if ((97 <=? c) && (c <=? 122))%N then (c - 32)%N else c.

Definition ci_eqb (p c : N) : bool := (canon p =? canon c)%N.

(** [strip_prefix_ci p s]: the rest of [s] after the prefix [p], compared
    case-insensitively. *)
Fixpoint strip_prefix_ci (p s : jstring) : option jstring :=
  match p, s with
  | [], _ => Some s
  | x :: p', c :: s' => if ci_eqb x c then strip_prefix_ci p' s' else None
  | _ :: _, [] => None
  end.

Fixpoint strip_prefix (p s : jstring) : option jstring :=
  match p, s with
  | [], _ => Some s
  | x :: p', c :: s' => if (x =? c)%N then strip_prefix p' s' else None
  | _ :: _, [] => None
  end.

Definition startsWith (s p : jstring) : bool :=
  match strip_prefix p s with Some _ => true | None => false end.

(** Index of the first code unit equal to [c]. *)
Fixpoint index_of (c : N) (s : jstring) : option nat :=
  match s with
  | [] => None
  | x :: t => if (x =? c)%N then Some O
              else option_map S (index_of c t)
  end.

(** Index of the first case-insensitive occurrence of [p]. *)
Fixpoint find_ci (p s : jstring) : option nat :=
  match strip_prefix_ci p s with
  | Some _ => Some O
  | None => match s with
            | [] => None
            | _ :: t => option_map S (find_ci p t)
            end
  end.

(** Search for the substring [p], case-insensitively. *)
Definition contains_ci (p s : jstring) : bool :=
  match find_ci p s with Some _ => true | None => false end.

(** [s.replace(re, '')] for a global regular expression [re] that looks at
    nothing before its starting position: [m s] is the length of the match
    of [re] anchored at the head of [s].  The scan goes left to right,
    resumes after each match and never looks again at what it has already
    produced.  [skip] counts the code units of the current match that are
    still to be dropped. *)
Fixpoint replace_all (m : jstring -> option nat) (skip : nat)
         (s : jstring) : jstring :=
  match s with
  | [] => []
  | c :: t =>
      match skip with
      | S k => replace_all m k t
      | O => match m s with
             | Some (S k) => replace_all m k t
             | Some O | None => c :: replace_all m O t
             end
      end
  end.

Definition remove_matches (m : jstring -> option nat) (s : jstring) :=
  replace_all m O s.

(** The code units of the split of [s] at every ['/']. *)
Fixpoint split_slash (s : jstring) : list jstring :=
  match s with
  | [] => [[]]
  | c :: t =>
      if (c =? 47)%N then [] :: split_slash t
      else match split_slash t with
           | h :: r => (c :: h) :: r
           | [] => [[c]]
           end
  end.

End JStr.

Import JStr.
Arguments lit : simpl never.
Arguments len : simpl never.
Arguments trim : simpl never.

(* ================================================================== *)
(** ** Thrown errors *)

(** The result of a call that may throw an [Error] with a message. *)
Inductive exn (A : Type) : Type :=
| Ret (a : A)
| Throw (message : string).
Arguments Ret {A} a.
Arguments Throw {A} message.

(* ================================================================== *)
(** ** sanitizeMarkdown *)

Module Sanitizer.

(** [/<script[^>]*>[\s\S]*?<\/script>/gi] anchored at the head of [s]:
    the opening tag runs to the first ['>'], the block to the first
    closing tag after it. *)
Definition match_script_block (s : jstring) : option nat :=
  match strip_prefix_ci (lit "<script") s with
  | None => None
  | Some r =>
      match index_of 62%N r with
      | None => None
      | Some j =>
          match find_ci (lit "</script>") (skipn (S j) r) with
          | None => None
          | Some k => Some (7 + S j + k + 9)%nat
          end
      end
  end.

(** [new RegExp(`<\\/?${tag}[^>]*>`, 'gi')] anchored at the head of [s]. *)
Definition match_tag (tag : string) (s : jstring) : option nat :=
  match s with
  | 60%N :: r =>
      let '(slash, r1) :=
        match r with
        | 47%N :: r' => (1%nat, r')
        | _ => (O, r)
        end in
      match strip_prefix_ci (lit tag) r1 with
      | None => None
      | Some r2 =>
          match index_of 62%N r2 with
          | None => None
          | Some j => Some (1 + slash + String.length tag + S j)%nat
          end
      end
  | _ => None
  end.

(** A literal pattern with the flags [gi]. *)
Definition match_literal (p : string) (s : jstring) : option nat :=
  match strip_prefix_ci (lit p) s with
  | Some _ => Some (String.length p)
  | None => None
  end.

Definition dangerousTags : list string :=
  ["script"; "iframe"; "object"; "embed"; "form"; "input"; "textarea";
   "button"]%string.

Definition max_content_length : Z := 10 * 1024 * 1024.

Definition sanitizeMarkdown (content : jstring) : exn jstring :=
  match content with
  | [] => Ret []
  | _ =>
      let content := remove_matches match_script_block content in
      let content :=
        fold_left (fun c tag => remove_matches (match_tag tag) c)
                  dangerousTags content in
      let content := remove_matches (match_literal "javascript:") content in
      let content := remove_matches (match_literal "data:") content in
      if len content >? max_content_length
      then Throw "Content too large (max 10MB)"
      else Ret (trim content)
  end.

End Sanitizer.

Import Sanitizer.

(* ================================================================== *)
(** ** Parsed JSON values *)

(** A value as [JSON.parse] builds it.  A number is given by the value of
    the parsed double; the handler observes numbers only through their
    truthiness and through [> 500]. *)
#[warnings="-register-all"]
Inductive json : Type :=
| JNull
| JBool (b : bool)
| JNum (q : Q)
| JStr (s : jstring)
| JArr (items : list json)
| JObj (fields : gmap string json).

(** A row of a table, and any plain object of the handler. *)
Abbreviation Row := (gmap string json) (only parsing).

(** ToBoolean *)
Definition truthy (v : json) : bool :=
  match v with
  | JNull => false
  | JBool b => b
  | JNum q => negb (Qeq_bool q (Qmake 0 1))
  | JStr s => negb (JStr.eqb s [])
  | JArr _ | JObj _ => true
  end.

(** [data.k] for a value [data] other than [null]; [None] is [undefined].
    A primitive or an array parsed from JSON has none of the properties the
    handler reads. *)
Definition prop (data : json) (k : string) : option json :=
  match data with
  | JObj o => o !! k
  | _ => None
  end.

Definition truthy_prop (p : option json) : bool :=
  match p with Some v => truthy v | None => false end.

(** [typeof p === 'string'] *)
Definition is_string (p : option json) : bool :=
  match p with Some (JStr _) => true | _ => false end.

(** [row[k] === s] for a string [s] *)
Definition field_is (k : string) (s : jstring) (row : Row) : bool :=
  match row !! k with
  | Some (JStr s') => JStr.eqb s' s
  | _ => false
  end.

(* ================================================================== *)
(** ** validateIdeaData *)

Module Validator.

Definition msg_title_required : string :=
  "Title is required and must be a non-empty string".
Definition msg_title_length : string :=
  "Title must be less than 500 characters".
Definition msg_description : string := "Description must be a string".
Definition msg_status : string :=
  "Status must be one of: idea, research, progress, launched, archived".
Definition msg_tags : string := "Tags must be an array of strings".
Definition msg_color : string := "Color must be a valid hex color code".

Definition valid_statuses : list jstring :=
  map lit ["idea"; "research"; "progress"; "launched"; "archived"]%string.

(** A member of the class [[0-9A-F]] under the [i] flag. *)
Definition is_hex_ci (c : N) : bool :=
  let u := canon c in
  ((48 <=? u) && (u <=? 57) || (65 <=? u) && (u <=? 70))%N.

(** [/^#[0-9A-F]{6}$/i.test(s)] *)
Definition hex_color_test (s : jstring) : bool :=
  match s with
  | c :: digits =>
      (c =? 35)%N && Nat.eqb (length digits) 6 && forallb is_hex_ci digits
  | [] => false
  end.

(** The message of the TypeError thrown by the runtime on [null.title]. *)
Definition msg_null_title : string :=
  "Cannot read properties of null (reading 'title')".

Section WithRuntime.

(** [v > 500] for a value [v] that is not a number, as the runtime
    coerces it.  Only reached when [title] is an object that has a
    [length] property of its own. *)
Variable coerce_gt_500 : json -> bool.

(** [title.length > 500] for a truthy [title] *)
Definition length_gt_500 (title : json) : bool :=
  match title with
  | JStr s => len s >? 500
  | JArr items => Z.of_nat (length items) >? 500
  | JObj o =>
      match o !! "length" with
      | Some (JNum q) => negb (Qle_bool q (Qmake 500 1))
      | Some v => coerce_gt_500 v
      | None => false
      end
  | JNull | JBool _ | JNum _ => false
  end.

(** [!title || typeof title !== 'string' || title.trim().length === 0] *)
Definition title_missing (title : option json) : bool :=
  negb (truthy_prop title) || negb (is_string title)
  || match title with
     | Some (JStr s) => len (trim s) =? 0
     | _ => false
     end.

(** [title && title.length > 500] *)
Definition title_too_long (title : option json) : bool :=
  match title with
  | Some v => truthy v && length_gt_500 v
  | None => false
  end.

Definition description_bad (d : option json) : bool :=
  truthy_prop d && negb (is_string d).

Definition status_bad (s : option json) : bool :=
  truthy_prop s
  && negb match s with
          | Some (JStr x) => existsb (JStr.eqb x) valid_statuses
          | _ => false
          end.

Definition tags_bad (t : option json) : bool :=
  truthy_prop t
  && match t with
     | Some (JArr items) =>
         negb (forallb (fun tag => is_string (Some tag)) items)
     | _ => true
     end.

Definition color_bad (c : option json) : bool :=
  truthy_prop c
  && match c with
     | Some (JStr s) => negb (hex_color_test s)
     | _ => true
     end.

(** [if (cond) errors.push(msg)] *)
Definition push (cond : bool) (msg : string) (errors : list string) :=
  if cond then errors ++ [msg] else errors.

Definition validateIdeaData (data : json) : exn (list string) :=
  match data with
  | JNull => Throw msg_null_title
  | _ =>
      let errors := [] in
      let errors :=
        push (title_missing (prop data "title")) msg_title_required errors in
      let errors :=
        push (title_too_long (prop data "title")) msg_title_length errors in
      let errors :=
        push (description_bad (prop data "description")) msg_description
             errors in
      let errors :=
        push (status_bad (prop data "status")) msg_status errors in
      let errors := push (tags_bad (prop data "tags")) msg_tags errors in
      let errors := push (color_bad (prop data "color")) msg_color errors in
      Ret errors
  end.

End WithRuntime.

End Validator.

Import Validator.

(* ================================================================== *)
(** ** Numbers of the query string *)

Module JsNum.

(** A Number of the handler: [NaN], an infinity, or a finite double.  The
    Numbers of the handler come from [parseInt], [Math.min] with 100, [+]
    and [- 1], so the finite ones are integers and are given by their
    value.  [-0] is not told from [0]: the two are written alike in the
    JSON of the answer and in the range of the query. *)
Inductive jsnum : Type :=
| NaN
| Infinity (negative : bool)
| Num (value : Z).

(** The Number value for an integer: the integer itself up to 2^53; beyond,
    the nearest double, which keeps 53 bits, the even one of two that are as
    near, and an infinity past the largest double. *)
Definition of_Z (z : Z) : jsnum :=
  let a := Z.abs z in
  if a <? 2 ^ 53 then Num z
  else
    let e := Z.log2 a - 52 in
    let q := Z.shiftr a e in
    let r := a - Z.shiftl q e in
    let half := Z.shiftl 1 (e - 1) in
    let q' := if (half <? r) || ((r =? half) && Z.odd q) then q + 1 else q in
    if 2 ^ 1024 <=? Z.shiftl q' e then Infinity (z <? 0)
    else Num (Z.sgn z * Z.shiftl q' e).

Definition digit_val (radix : Z) (c : N) : option Z :=
  let c := Z.of_N c in
  let d := if (48 <=? c) && (c <=? 57) then c - 48
           else if (97 <=? c) && (c <=? 122) then c - 87
           else if (65 <=? c) && (c <=? 90) then c - 55
           else radix in
  if d <? radix then Some d else None.

(** The value of the longest prefix of digits; [acc] is the value read so
    far, [None] before the first digit. *)
Fixpoint parse_digits (radix : Z) (acc : option Z) (s : jstring) : option Z :=
  match s with
  | [] => acc
  | c :: t =>
      match digit_val radix c with
      | Some d => parse_digits radix (Some (radix * default 0 acc + d)) t
      | None => acc
      end
  end.

(** [parseInt(s)], no radix given. *)
Definition parseInt (s : jstring) : jsnum :=
  let s := trim_start s in
  let '(sign, s) :=
    match s with
    | c :: t => if (c =? 45)%N then (-1, t)
                else if (c =? 43)%N then (1, t) else (1, s)
    | [] => (1, s)
    end in
  let '(radix, s) :=
    match s with
    | c :: x :: t =>
        if ((c =? 48) && ((x =? 120) || (x =? 88)))%N then (16, t)
        else (10, s)
    | _ => (10, s)
    end in
  match parse_digits radix None s with
  | Some n => of_Z (sign * n)
  | None => NaN
  end.

(** [Math.min(a, b)] for an integer [b] *)
Definition min (a : jsnum) (b : Z) : jsnum :=
  match a with
  | NaN => NaN
  | Infinity true => Infinity true
  | Infinity false => Num b
  | Num x => Num (Z.min x b)
  end.

(** [a + b]: the sum of two doubles, rounded. *)
Definition add (a b : jsnum) : jsnum :=
  match a, b with
  | NaN, _ | _, NaN => NaN
  | Infinity s, Infinity s' => if Bool.eqb s s' then Infinity s else NaN
  | Infinity s, Num _ | Num _, Infinity s => Infinity s
  | Num x, Num y => of_Z (x + y)
  end.

(** [a - b] for an integer [b] *)
Definition sub (a : jsnum) (b : Z) : jsnum := add a (Num (- b)).

Arguments of_Z : simpl never.

End JsNum.

Import JsNum.

(* ================================================================== *)
(** ** Requests, responses and the collaborators of the handler *)

(** The row that the stored procedure [validate_api_key] returns. *)
Record KeyData := {
  api_key_id : jstring;
  is_valid : bool;
  permissions : list jstring;
  rate_limit_per_hour : Z;
  user_id : jstring;
}.

(** The [{ data, error }] of a remote call: an error, or data that may be
    [null]. *)
Inductive rpc (A : Type) : Type :=
| RpcError
| RpcData (data : option A).
Arguments RpcError {A}.
Arguments RpcData {A} data.

Record Request := {
  method : string;
  (** [req.headers.get('x-api-key')] *)
  x_api_key : option jstring;
  (** [new URL(req.url).pathname] *)
  pathname : jstring;
  (** the pairs of [url.searchParams], in order *)
  searchParams : list (jstring * jstring);
  (** what [await req.json()] gives: the parsed body, or the error thrown *)
  json_body : exn json;
}.

Inductive Body : Type :=
| NoBody
| ErrorBody (error : string)
| ValidationBody (error : string) (details : list string)
| DataBody (data : gmap string json)
| ListBody (data : list (gmap string json)) (limit offset : jsnum) (count : nat)
| ArchivedBody (data : gmap string json) (message : string).

(** A response: its status and its JSON body (the headers are the fixed CORS
    headers throughout). *)
Record Response := {
  status : Z;
  body : Body;
}.

(** The query that the collection branch builds on the [ideas] table:
    [.eq('user_id', _)], [.order('updated_at', descending)],
    [.range(from, to)] and the optional [.eq('status', _)] and
    [.or(title.ilike / description.ilike)]. *)
Record Query := {
  q_user_id : jstring;
  q_range_from : jsnum;
  q_range_to : jsnum;
  q_status : option jstring;
  q_search : option jstring;
}.

(** [url.searchParams.get(name)] *)
Fixpoint params_get (name : jstring) (ps : list (jstring * jstring))
  : option jstring :=
  match ps with
  | [] => None
  | (k, v) :: ps' => if JStr.eqb k name then Some v else params_get name ps'
  end.

(** [x || d] for a string or [null] [x] *)
Definition or_default (x : option jstring) (d : jstring) : jstring :=
  match x with
  | Some (c :: s) => c :: s
  | _ => d
  end.

(** A string or [null] used as a condition: [Some] when truthy. *)
Definition nonempty (x : option jstring) : option jstring :=
  match x with
  | Some (c :: s) => Some (c :: s)
  | _ => None
  end.

Definition lower_ascii (a : Ascii.ascii) : Ascii.ascii :=
  let n := Ascii.N_of_ascii a in
  if ((65 <=? n) && (n <=? 90))%N then Ascii.ascii_of_N (n + 32) else a.

(** [toLowerCase] on the name of an HTTP method *)
Fixpoint toLowerCase (s : string) : string :=
  match s with
  | EmptyString => EmptyString
  | String a s' => String (lower_ascii a) (toLowerCase s')
  end.

(** [permissions.includes(p)] *)
Definition includes (permissions : list jstring) (p : string) : bool :=
  existsb (fun x => JStr.eqb x (lit p)) permissions.

(** [url.pathname.split('/').pop()] *)
Definition last_segment (path : jstring) : jstring :=
  List.last (split_slash path) [].

(** [sanitizeMarkdown(v)] on a property [v] of the body: anything falsy gives
    [''], a string is sanitised, and any other value has no [replace]. *)
Definition sanitize_prop (v : option json) : exn jstring :=
  match v with
  | Some (JStr s) => sanitizeMarkdown s
  | _ => if truthy_prop v then Throw "content.replace is not a function"
         else Ret []
  end.

(** [{ ...data }]: the own properties of a parsed body.  Only an object
    passes the validator, so only an object is ever spread. *)
Definition spread (data : json) : gmap string json :=
  match data with
  | JObj o => o
  | _ => ∅
  end.

(* ================================================================== *)
(** ** The handler *)

Module Gateway.
Section Handler.

(** The counters of the rate limiter. *)
Variable RL : Type.

(** [supabase.rpc('validate_api_key', { key })] *)
Variable validate_api_key : jstring -> rpc (list KeyData).

(** [supabase.rpc('check_rate_limit', ...)]: the answer and the counters
    after the call. *)
Variable check_rate_limit : RL -> jstring -> string -> Z -> rpc bool * RL.

(** The [ideas] table: the values it gives to the columns an inserted row
    leaves out, the rows it accepts next to the others (types,
    constraints, keys), and the answer to a collection query. *)
Variable db_defaults : list (gmap string json) -> gmap string json.
Variable db_accepts : list (gmap string json) -> gmap string json -> bool.
Variable db_select_many :
  list (gmap string json) -> Query -> option (list (gmap string json)).

Variable coerce_gt_500 : json -> bool.

(** What outlives a request. *)
Record State := {
  ideas : list (gmap string json);
  limiter : RL;
}.

(** A computation of the handler: it reads and writes the state and may
    throw; what it wrote before throwing stays written. *)
Definition M (A : Type) : Type := State -> exn A * State.

Definition ret {A} (a : A) : M A := fun st => (Ret a, st).

Definition bind {A B} (m : M A) (k : A -> M B) : M B :=
  fun st =>
    match m st with
    | (Ret a, st') => k a st'
    | (Throw e, st') => (Throw e, st')
    end.

(** An expression that may throw and touches no state. *)
Definition lift {A} (e : exn A) : M A := fun st => (e, st).

Notation "'do' x <- m ;; k" := (bind m (fun x => k))
  (at level 10, x name, m at level 99, k at level 200).

Definition respond (code : Z) (b : Body) : M Response :=
  ret {| status := code; body := b |}.

(** *** authenticateApiKey *)

Definition authenticateApiKey (apiKey : jstring) : exn KeyData :=
  if JStr.eqb apiKey [] || negb (startsWith apiKey (lit "iah_"))
  then Throw "Invalid API key format"
  else
    match validate_api_key apiKey with
    | RpcError => Throw "Authentication failed"
    | RpcData None | RpcData (Some []) => Throw "Invalid API key"
    | RpcData (Some (keyData :: _)) =>
        if negb (is_valid keyData)
        then Throw "API key is expired or inactive"
        else Ret keyData
    end.

(** *** checkRateLimit *)

Definition checkRateLimit (apiKeyId : jstring) (endpoint : string)
           (rateLimit : Z) : M bool :=
  fun st =>
    let '(answer, rl) :=
      check_rate_limit (limiter st) apiKeyId endpoint rateLimit in
    let st' := {| ideas := ideas st; limiter := rl |} in
    match answer with
    | RpcError => (Throw "Rate limiting failed", st')
    | RpcData None | RpcData (Some false) =>
        (Throw "Rate limit exceeded", st')
    | RpcData (Some true) => (Ret true, st')
    end.

(** *** The calls on the [ideas] table

    Each gives the [data] of the call, [None] when the call reports an
    [error]. *)

(** [.eq('id', ideaId).eq('user_id', userId)] *)
Definition scoped (ideaId userId : jstring) (row : gmap string json) : bool :=
  field_is "id" ideaId row && field_is "user_id" userId row.

(** [.select('*').eq(..).eq(..).single()]: an error unless exactly one row
    is selected. *)
Definition select_single (ideaId userId : jstring)
  : M (option (gmap string json)) :=
  fun st =>
    match List.filter (scoped ideaId userId) (ideas st) with
    | [row] => (Ret (Some row), st)
    | _ => (Ret None, st)
    end.

(** [.insert([row]).select().single()] *)
Definition insert_single (row : gmap string json)
  : M (option (gmap string json)) :=
  fun st =>
    let stored := row ∪ db_defaults (ideas st) in
    if db_accepts (ideas st) stored
    then (Ret (Some stored),
          {| ideas := ideas st ++ [stored]; limiter := limiter st |})
    else (Ret None, st).

(** [.update(patch).eq(..).eq(..).select().single()]: the selected row
    takes the columns of the patch; an error, and no change, unless
    exactly one row is selected and the table accepts the result. *)
Definition update_single (patch : gmap string json) (ideaId userId : jstring)
  : M (option (gmap string json)) :=
  fun st =>
    match List.filter (scoped ideaId userId) (ideas st) with
    | [row] =>
        let others :=
          List.filter (fun r => negb (scoped ideaId userId r)) (ideas st) in
        if db_accepts others (patch ∪ row)
        then (Ret (Some (patch ∪ row)),
              {| ideas :=
                   map (fun r => if scoped ideaId userId r
                                 then patch ∪ r else r) (ideas st);
                 limiter := limiter st |})
        else (Ret None, st)
    | _ => (Ret None, st)
    end.

Definition select_many (q : Query) : M (option (list (gmap string json))) :=
  fun st => (Ret (db_select_many (ideas st) q), st).

(** *** The branches of the switch *)

Definition is_idea_id (ideaId : jstring) : bool :=
  negb (JStr.eqb ideaId []) && negb (JStr.eqb ideaId (lit "ai-ideas")).

Definition effective_limit (params : list (jstring * jstring)) : jsnum :=
  JsNum.min
    (parseInt (or_default (params_get (lit "limit") params) (lit "50"))) 100.

Definition effective_offset (params : list (jstring * jstring)) : jsnum :=
  parseInt (or_default (params_get (lit "offset") params) (lit "0")).

Definition collection_query (keyData : KeyData)
           (params : list (jstring * jstring)) : Query :=
  let limit := effective_limit params in
  let offset := effective_offset params in
  {| q_user_id := user_id keyData;
     q_range_from := offset;
     q_range_to := JsNum.sub (JsNum.add offset limit) 1;
     q_status := nonempty (params_get (lit "status") params);
     q_search := nonempty (params_get (lit "search") params) |}.

Definition handle_get (keyData : KeyData) (req : Request) (ideaId : jstring)
  : M Response :=
  if is_idea_id ideaId then
    do idea <- select_single ideaId (user_id keyData) ;;
    match idea with
    | None => respond 404 (ErrorBody "Idea not found")
    | Some idea => respond 200 (DataBody idea)
    end
  else
    let params := searchParams req in
    do ideas <- select_many (collection_query keyData params) ;;
    match ideas with
    | None => respond 500 (ErrorBody "Failed to fetch ideas")
    | Some ideas =>
        respond 200 (ListBody ideas (effective_limit params)
                              (effective_offset params) (length ideas))
    end.

Definition handle_post (keyData : KeyData) (req : Request) : M Response :=
  do createData <- lift (json_body req) ;;
  do createErrors <- lift (validateIdeaData coerce_gt_500 createData) ;;
  match createErrors with
  | _ :: _ => respond 400 (ValidationBody "Validation failed" createErrors)
  | [] =>
      do title <- lift (sanitize_prop (prop createData "title")) ;;
      do description <-
        (if truthy_prop (prop createData "description")
         then do d <- lift (sanitize_prop (prop createData "description")) ;;
              ret (JStr d)
         else ret JNull) ;;
      let sanitizedCreateData :=
        <["user_id" := JStr (user_id keyData)]>
          (<["description" := description]>
             (<["title" := JStr title]> (spread createData))) in
      do newIdea <- insert_single sanitizedCreateData ;;
      match newIdea with
      | None => respond 500 (ErrorBody "Failed to create idea")
      | Some newIdea => respond 201 (DataBody newIdea)
      end
  end.

(** The patch of an update: the body with [title] and [description]
    sanitised when truthy and [undefined] otherwise, then without the
    keys whose value is [undefined]. *)
Definition sanitizedUpdateData (updateData : json) : exn (gmap string json) :=
  match (if truthy_prop (prop updateData "title")
         then match sanitize_prop (prop updateData "title") with
              | Ret t => Ret (Some (JStr t))
              | Throw e => Throw e
              end
         else Ret None) with
  | Throw e => Throw e
  | Ret title =>
      match (if truthy_prop (prop updateData "description")
             then match sanitize_prop (prop updateData "description") with
                  | Ret d => Ret (Some (JStr d))
                  | Throw e => Throw e
                  end
             else Ret None) with
      | Throw e => Throw e
      | Ret description =>
          let sanitized : gmap string (option json) :=
            <["description" := description]>
              (<["title" := title]> (Some <$> spread updateData)) in
          Ret (omap id sanitized)
      end
  end.

Definition handle_put (keyData : KeyData) (req : Request) (ideaId : jstring)
  : M Response :=
  if negb (is_idea_id ideaId)
  then respond 400 (ErrorBody "Idea ID required for updates")
  else
    do updateData <- lift (json_body req) ;;
    do updateErrors <- lift (validateIdeaData coerce_gt_500 updateData) ;;
    match updateErrors with
    | _ :: _ => respond 400 (ValidationBody "Validation failed" updateErrors)
    | [] =>
        do patch <- lift (sanitizedUpdateData updateData) ;;
        do updatedIdea <- update_single patch ideaId (user_id keyData) ;;
        match updatedIdea with
        | None =>
            respond 404 (ErrorBody "Failed to update idea or idea not found")
        | Some updatedIdea => respond 200 (DataBody updatedIdea)
        end
    end.

Definition archived_patch : gmap string json :=
  {[ "status" := JStr (lit "archived") ]}.

Definition handle_delete (keyData : KeyData) (ideaId : jstring)
  : M Response :=
  if negb (is_idea_id ideaId)
  then respond 400 (ErrorBody "Idea ID required for deletion")
  else
    do deletedIdea <- update_single archived_patch ideaId (user_id keyData) ;;
    match deletedIdea with
    | None =>
        respond 404 (ErrorBody "Failed to delete idea or idea not found")
    | Some deletedIdea =>
        respond 200 (ArchivedBody deletedIdea "Idea archived successfully")
    end.

Definition dispatch (keyData : KeyData) (req : Request) : M Response :=
  let ideaId := last_segment (pathname req) in
  if String.eqb (method req) "GET" then handle_get keyData req ideaId
  else if String.eqb (method req) "POST" then handle_post keyData req
  else if String.eqb (method req) "PUT" then handle_put keyData req ideaId
  else if String.eqb (method req) "DELETE" then handle_delete keyData ideaId
  else respond 405 (ErrorBody "Method not allowed").

Definition requiredPermission (req : Request) : string :=
  if String.eqb (toLowerCase (method req)) "get" then "read" else "write".

(** The body of the [try] block. *)
Definition guarded (req : Request) : M Response :=
  match x_api_key req with
  | None | Some [] =>
      respond 401 (ErrorBody "API key required in x-api-key header")
  | Some apiKey =>
      do keyData <- lift (authenticateApiKey apiKey) ;;
      if negb (includes (permissions keyData) (requiredPermission req))
         && negb (includes (permissions keyData) "admin")
      then respond 403 (ErrorBody ("Insufficient permissions. Required: "
                                     +:+ requiredPermission req))
      else
        do _ <- checkRateLimit (api_key_id keyData) "ai-ideas"
                            (rate_limit_per_hour keyData) ;;
        dispatch keyData req
  end.

(** [error.message || 'Internal server error'] *)
Definition error_message (message : string) : string :=
    match message with
    | EmptyString => "Internal server error"
    | _ => message
    end.

(** The [catch] clause around the body. *)
Definition catch (outcome : exn Response * State) : Response * State :=
    match outcome with
    | (Ret response, st') => (response, st')
    | (Throw message, st') =>
        ({| status := 500; body := ErrorBody (error_message message) |}, st')
    end.

(** The callback given to [serve]. *)
Definition serve (req : Request) (st : State) : Response * State :=
    if String.eqb (method req) "OPTIONS"
    then ({| status := 200; body := NoBody |}, st)
    else catch (guarded req st).

(** *** Requests that get through the checks *)

(** The state once the limiter has counted the request. *)
Definition counted (st : State) (rl : RL) : State :=
    {| ideas := ideas st; limiter := rl |}.

(** The request carries a key that the credential store resolves to
      [keyData]. *)
Definition authenticated (req : Request) (keyData : KeyData) : Prop :=
    ∃ apiKey,
      x_api_key req = Some apiKey ∧ authenticateApiKey apiKey = Ret keyData.

(** The key has the permission that the method asks for, or [admin]. *)
Definition permitted (keyData : KeyData) (req : Request) : Prop :=
    includes (permissions keyData) (requiredPermission req)
    || includes (permissions keyData) "admin" = true.

(** The rate limiter lets the request through and leaves its counters at
      [rl]. *)
Definition admitted (st : State) (keyData : KeyData) (rl : RL) : Prop :=
    check_rate_limit (limiter st) (api_key_id keyData) "ai-ideas"
                     (rate_limit_per_hour keyData)
    = (RpcData (Some true), rl).

End Handler.

Arguments ideas {RL} _.
Arguments limiter {RL} _.
Arguments Build_State {RL} _ _.
Arguments catch {RL} _.

End Gateway.

(* ================================================================== *)
(** ** The rules of the validator, as the specification words them *)

Module Rules.

(** Only whitespace. *)
Definition blank (s : jstring) : Prop := Forall (λ c, is_space c = true) s.

(** A field is given when the body has it with a truthy value. *)
Definition given (data : json) (k : string) (v : json) : Prop :=
  prop data k = Some v ∧ truthy v = true.

(** [title]: required, a string, not blank, at most 500 code units. *)
Definition title_rule (data : json) : Prop :=
  ∃ s, prop data "title" = Some (JStr s) ∧ ¬ blank s ∧ len s <= 500.

Definition description_rule (data : json) : Prop :=
  ∀ v, given data "description" v → ∃ s, v = JStr s.

Definition status_rule (data : json) : Prop :=
  ∀ v, given data "status" v → ∃ s, v = JStr s ∧ s ∈ valid_statuses.

Definition tags_rule (data : json) : Prop :=
  ∀ v, given data "tags" v →
       ∃ items, v = JArr items ∧ Forall (λ tag, ∃ s, tag = JStr s) items.

(** A character of [0-9A-Fa-f]. *)
Definition hex_digit (c : N) : Prop :=
  (48 <= c <= 57 ∨ 65 <= c <= 70 ∨ 97 <= c <= 102)%N.

(** [^#[0-9A-Fa-f]{6}$] *)
Definition hex_color (s : jstring) : Prop :=
  ∃ digits, s = 35%N :: digits ∧ length digits = 6%nat ∧ Forall hex_digit digits.

Definition color_rule (data : json) : Prop :=
  ∀ v, given data "color" v → ∃ s, v = JStr s ∧ hex_color s.

(** The number that a string of decimal digits writes. *)
Definition decimal_digit (c : N) : Prop := (48 <= c <= 57)%N.

Definition decimal_value (digits : jstring) : Z :=
  fold_left (λ acc c, 10 * acc + (Z.of_N c - 48)) digits 0.

End Rules.

(* ================================================================== *)
(** ** A small world to run the handler in *)

Module World.

Import Gateway.

Definition alice : KeyData :=
  {| api_key_id := lit "k-alice"; is_valid := true;
     permissions := [lit "read"; lit "write"];
     rate_limit_per_hour := 1000; user_id := lit "u-alice" |}.

Definition bob : KeyData :=
  {| api_key_id := lit "k-bob"; is_valid := true;
     permissions := [lit "read"; lit "write"];
     rate_limit_per_hour := 1000; user_id := lit "u-bob" |}.

Definition revoked : KeyData :=
  {| api_key_id := lit "k-old"; is_valid := false;
     permissions := [lit "read"];
     rate_limit_per_hour := 1000; user_id := lit "u-alice" |}.

Definition validate_api_key (key : jstring) : rpc (list KeyData) :=
  if JStr.eqb key (lit "iah_alice") then RpcData (Some [alice])
  else if JStr.eqb key (lit "iah_bob") then RpcData (Some [bob])
  else if JStr.eqb key (lit "iah_old") then RpcData (Some [revoked])
  else if JStr.eqb key (lit "iah_down") then RpcError
  else RpcData (Some []).

(** One counter for all keys: the number of units consumed so far. *)
Definition check_rate_limit (used : nat) (_ : jstring) (_ : string)
           (rateLimit : Z) : rpc bool * nat :=
  (RpcData (Some (Z.of_nat used <? rateLimit)), S used).

Definition db_defaults (rows : list (gmap string json)) : gmap string json :=
  {[ "id" := JStr (lit "i" ++ [(48 + N.of_nat (length rows))%N]);
     "status" := JStr (lit "idea");
     "color" := JStr (lit "#FFFFFF") ]}.

Definition db_accepts (_ : list (gmap string json)) (row : gmap string json)
  : bool :=
  is_string (row !! "id") && is_string (row !! "user_id")
  && is_string (row !! "title").

(** Rows of the owner with the asked status, in table order, cut to the
    range; the search is not looked at. *)
Definition db_select_many (rows : list (gmap string json)) (q : Query)
  : option (list (gmap string json)) :=
  match q_range_from q, q_range_to q with
  | Num from, Num to =>
      let mine := List.filter (field_is "user_id" (q_user_id q)) rows in
      let mine := match q_status q with
                  | Some s => List.filter (field_is "status" s) mine
                  | None => mine
                  end in
      Some (take (Z.to_nat (to - from + 1)) (drop (Z.to_nat from) mine))
  | _, _ => None
  end.

Definition coerce_gt_500 (_ : json) : bool := false.

Definition serve : Request -> State nat -> Response * State nat :=
  Gateway.serve nat validate_api_key check_rate_limit db_defaults db_accepts
                db_select_many coerce_gt_500.

Definition idea (id owner title : string) : gmap string json :=
  {[ "id" := JStr (lit id); "user_id" := JStr (lit owner);
     "title" := JStr (lit title); "status" := JStr (lit "idea");
     "description" := JStr (lit "notes") ]}.

Definition table : list (gmap string json) :=
  [idea "i1" "u-alice" "first"; idea "i2" "u-bob" "second"].

Definition start : State nat := {| ideas := table; limiter := O |}.

Definition request (m key path : string) (params : list (string * string))
           (body : exn json) : Request :=
  {| method := m; x_api_key := Some (lit key); pathname := lit path;
     searchParams := map (fun kv => (lit kv.1, lit kv.2)) params;
     json_body := body |}.

Definition no_body : exn json := Throw "Unexpected end of JSON input".

End World.

(* ================================================================== *)
(** * Properties *)

(** ** The handler on sample requests *)

Module Samples.

Import Gateway World.

Example sanitize_plain :
  sanitizeMarkdown (lit "  # Title <b>x</b> ") = Ret (lit "# Title <b>x</b>").
Proof. vm_compute. reflexivity. Qed.

Example sanitize_script_block :
  sanitizeMarkdown
    (lit "a<SCRIPT src=x>alert(1)</script >b</Script>c<iframe src=y>d")
  = Ret (lit "acd").
Proof. vm_compute. reflexivity. Qed.

Example sanitize_urls :
  sanitizeMarkdown (lit "[x](JavaScript:alert(1)) data:text")
  = Ret (lit "[x](alert(1)) text").
Proof. vm_compute. reflexivity. Qed.

Example validate_ok :
  validateIdeaData coerce_gt_500
    (JObj {[ "title" := JStr (lit "T"); "color" := JStr (lit "#a0B1c2") ]})
  = Ret [].
Proof. vm_compute. reflexivity. Qed.

Example validate_collects_all :
  validateIdeaData coerce_gt_500
    (JObj {[ "status" := JStr (lit "bogus"); "tags" := JArr [JNull] ]})
  = Ret [msg_title_required; msg_status; msg_tags].
Proof. vm_compute. reflexivity. Qed.

Example parseInt_samples :
  parseInt (lit "500") = Num 500 ∧ parseInt (lit " -12px") = Num (-12)
  ∧ parseInt (lit "0x1f") = Num 31 ∧ parseInt (lit "ten") = NaN.
Proof. vm_compute. auto. Qed.

Example parseInt_rounds :
  parseInt (lit "9007199254740992") = Num 9007199254740992
  ∧ parseInt (lit "9007199254740993") = Num 9007199254740992
  ∧ parseInt (lit "9007199254740995") = Num 9007199254740996
  ∧ parseInt (lit "-9007199254740997") = Num (-9007199254740996)
  ∧ parseInt (lit "0x20000000000003") = Num 9007199254740996
  ∧ parseInt (lit "123456789012345678901234567890")
    = Num 123456789012345677877719597056
  ∧ parseInt (lit "1" ++ repeat 48%N 308) = Num (10 ^ 308 + 1097906362944045541740492309677311846336810682903157585404911491537163328978494688899061249669721172515611590283743140088328307009198146046031271664502933027185697489699588559043338384466165001178426897626212945177628091195786707458122783970171784415105291802893207873272974885715430223118336)
  ∧ parseInt (lit "1" ++ repeat 48%N 309) = Infinity false
  ∧ parseInt (lit "-1" ++ repeat 48%N 400) = Infinity true.
Proof. vm_compute. repeat apply conj; reflexivity. Qed.

Example preflight :
  World.serve (request "OPTIONS" "" "/functions/v1/ai-ideas" [] no_body) start
  = ({| status := 200; body := NoBody |}, start).
Proof. vm_compute. reflexivity. Qed.

Example get_own_idea :
  (World.serve (request "GET" "iah_alice" "/functions/v1/ai-ideas/i1" []
                        no_body) start).1
  = {| status := 200; body := DataBody (idea "i1" "u-alice" "first") |}.
Proof. vm_compute. reflexivity. Qed.

Example post_defaults :
  let req := request "POST" "iah_alice" "/functions/v1/ai-ideas" []
                     (Ret (JObj {[ "title" := JStr (lit " T ") ]})) in
  let field k := match body (World.serve req start).1 with
                 | DataBody stored => stored !! k
                 | _ => None
                 end in
  status (World.serve req start).1 = 201
  ∧ field "title" = Some (JStr (lit "T"))
  ∧ field "description" = Some JNull
  ∧ field "status" = Some (JStr (lit "idea"))
  ∧ field "user_id" = Some (JStr (lit "u-alice"))
  ∧ length (ideas (World.serve req start).2) = 3%nat.
Proof. vm_compute. repeat apply conj; reflexivity. Qed.

Example read_only_key_cannot_write :
  let reader := {| api_key_id := lit "k"; is_valid := true;
                   permissions := [lit "read"]; rate_limit_per_hour := 10;
                   user_id := lit "u-alice" |} in
  Gateway.serve nat (λ _, RpcData (Some [reader])) check_rate_limit
                db_defaults db_accepts db_select_many coerce_gt_500
                (request "DELETE" "iah_reader" "/functions/v1/ai-ideas/i1" []
                         no_body) start
  = ({| status := 403;
        body := ErrorBody "Insufficient permissions. Required: write" |},
     start).
Proof. vm_compute. reflexivity. Qed.

End Samples.

(* ================================================================== *)
(** ** The sanitizer: what it keeps and what it bounds *)

Section SanitizerBounds.

(** *** Removal and trimming only shorten *)

Lemma replace_all_length (m : jstring → option nat) skip s :
  (length (replace_all m skip s) ≤ length s)%nat.
Proof.
  revert skip. induction s as [|c s IH]; intros skip; [done|]. simpl.
  destruct skip as [|k].
  - destruct (m (c :: s)) as [[|k]|]; simpl;
      [specialize (IH O)|specialize (IH k)|specialize (IH O)]; lia.
  - specialize (IH k). lia.
Qed.

Lemma remove_matches_len (m : jstring → option nat) s :
  len (remove_matches m s) <= len s.
Proof.
  unfold remove_matches, len. pose proof (replace_all_length m O s). lia.
Qed.

Lemma remove_tags_len tags s :
  len (fold_left (λ c tag, remove_matches (match_tag tag) c) tags s) <= len s.
Proof.
  revert s. induction tags as [|tag tags IH]; intros s; simpl; [lia|].
  specialize (IH (remove_matches (match_tag tag) s)).
  pose proof (remove_matches_len (match_tag tag) s). lia.
Qed.

Lemma trim_start_suffix s :
  ∃ spaces, s = spaces ++ trim_start s.
Proof.
  induction s as [|c s [spaces IH]]; [by exists []|]. simpl.
  destruct (is_space c); [|by exists []].
  exists (c :: spaces). simpl. by rewrite <- IH.
Qed.

Lemma trim_start_length s : (length (trim_start s) ≤ length s)%nat.
Proof.
  destruct (trim_start_suffix s) as [spaces Hs].
  rewrite Hs at 2. rewrite length_app. lia.
Qed.

Lemma trim_len s : len (trim s) <= len s.
Proof.
  unfold trim, len. rewrite length_rev.
  pose proof (trim_start_length (rev (trim_start s))) as H.
  rewrite length_rev in H. pose proof (trim_start_length s). lia.
Qed.

(** The text after the four removal passes. *)
Local Abbreviation stripped content :=
  (remove_matches (match_literal "data:")
     (remove_matches (match_literal "javascript:")
        (fold_left (λ c tag, remove_matches (match_tag tag) c) dangerousTags
           (remove_matches match_script_block content)))).

Lemma stripped_len content : len (stripped content) <= len content.
Proof.
  pose proof (remove_matches_len match_script_block content).
  pose proof (remove_tags_len dangerousTags
                (remove_matches match_script_block content)).
  pose proof (remove_matches_len (match_literal "javascript:")
                (fold_left (λ c tag, remove_matches (match_tag tag) c)
                   dangerousTags (remove_matches match_script_block content))).
  pose proof (remove_matches_len (match_literal "data:")
                (remove_matches (match_literal "javascript:")
                   (fold_left (λ c tag, remove_matches (match_tag tag) c)
                      dangerousTags
                      (remove_matches match_script_block content)))).
  lia.
Qed.

Lemma sanitize_unfold content :
  sanitizeMarkdown content
  = match content with
    | [] => Ret []
    | _ => if len (stripped content) >? max_content_length
           then Throw "Content too large (max 10MB)"
           else Ret (trim (stripped content))
    end.
Proof. by destruct content. Qed.

(** X1.  What [sanitizeMarkdown] can answer: a text that is no longer than
    the content it was given and no longer than 10 MiB, or the error
    [Content too large (max 10MB)], and that only for a content of more than
    10 MiB.  So a content of at most 10 MiB is always sanitised. *)
Theorem sanitize_outcome content :
  match sanitizeMarkdown content with
  | Ret out => len out <= len content ∧ len out <= max_content_length
  | Throw message =>
      message = "Content too large (max 10MB)"
      ∧ max_content_length < len content
  end.
Proof.
  rewrite sanitize_unfold. destruct content as [|c content]; [done|].
  pose proof (stripped_len (c :: content)) as Hlen.
  pose proof (trim_len (stripped (c :: content))) as Htrim.
  destruct (len (stripped (c :: content)) >? max_content_length) eqn:Hmax.
  - apply Z.gtb_lt in Hmax. split; [done|lia].
  - rewrite Z.gtb_ltb, Z.ltb_ge in Hmax. lia.
Qed.

(** *** The result is trimmed *)

Lemma trim_start_head s c t : trim_start s = c :: t → is_space c = false.
Proof.
  induction s as [|x s IH]; [done|]. simpl.
  destruct (is_space x) eqn:Hx; [done|]. by intros [= <- _].
Qed.

Lemma trim_start_idem s : trim_start (trim_start s) = trim_start s.
Proof.
  destruct (trim_start s) as [|c t] eqn:Hs; [done|].
  simpl. by rewrite (trim_start_head _ _ _ Hs).
Qed.

Lemma trim_trim s : trim (trim s) = trim s.
Proof.
  unfold trim.
  set (y := trim_start s). set (z := trim_start (rev y)).
  assert (trim_start (rev z) = rev z) as ->.
  { destruct (trim_start_suffix (rev y)) as [spaces Hy]. fold z in Hy.
    apply (f_equal (@rev N)) in Hy.
    rewrite rev_involutive, rev_app_distr in Hy.
    destruct (rev z) as [|c t] eqn:Hz; [done|].
    simpl in Hy. simpl. by rewrite (trim_start_head s c _ Hy). }
  rewrite rev_involutive. subst z. by rewrite trim_start_idem.
Qed.

(** X2.  The text that [sanitizeMarkdown] returns is trimmed: it starts and
    ends with something else than whitespace, so trimming it again changes
    nothing. *)
Theorem sanitize_trimmed content out :
  sanitizeMarkdown content = Ret out → trim out = out.
Proof.
  rewrite sanitize_unfold. destruct content as [|c content].
  - by intros [= <-].
  - destruct (_ >? _); [done|]. intros [= <-]. apply trim_trim.
Qed.

(** A content of at most 10 MiB is sanitised to a trimmed text that is no
    longer. *)
Lemma sanitize_short content :
  len content <= max_content_length →
  ∃ out, sanitizeMarkdown content = Ret out
         ∧ len out <= len content ∧ trim out = out.
Proof.
  intros Hmax. rewrite sanitize_unfold. destruct content as [|c content].
  - by exists [].
  - pose proof (stripped_len (c :: content)) as Hlen.
    pose proof (trim_len (stripped (c :: content))) as Htrim.
    destruct (len (stripped (c :: content)) >? max_content_length) eqn:Hgt.
    + apply Z.gtb_lt in Hgt. lia.
    + eexists. split; [done|]. split; [lia|]. apply trim_trim.
Qed.

(** *** Text with nothing to remove *)

Lemma replace_all_none (m : jstring → option nat) s :
  (∀ t, t `suffix_of` s → m t = None) → replace_all m O s = s.
Proof.
  induction s as [|c s IH]; intros Hnone; [done|]. simpl.
  rewrite (Hnone (c :: s)) by done. f_equal. apply IH.
  intros t Ht. apply Hnone. by apply suffix_cons_r.
Qed.

Lemma ci_eqb_lt c : c ≠ 60%N → ci_eqb 60 c = false.
Proof.
  intros Hc. unfold ci_eqb, canon. apply N.eqb_neq.
  change ((97 <=? 60) && (60 <=? 122))%N with false. cbv iota.
  destruct ((97 <=? c) && (c <=? 122))%N eqn:Hlower; [|lia].
  apply andb_true_iff in Hlower as [Hlo _]. apply N.leb_le in Hlo. lia.
Qed.

Lemma match_script_block_none t :
  60%N ∉ t → match_script_block t = None.
Proof.
  intros Hlt. unfold match_script_block. destruct t as [|c r]; [done|].
  change (lit "<script") with (60%N :: lit "script").
  cbn [strip_prefix_ci]. rewrite ci_eqb_lt; [done|].
  intros ->. apply Hlt. by left.
Qed.

Lemma match_tag_none tag t : 60%N ∉ t → match_tag tag t = None.
Proof.
  intros Hlt. unfold match_tag. destruct t as [|c r]; [done|].
  assert (c ≠ 60%N) as Hc by (intros ->; apply Hlt; by left).
  destruct c as [|p]; [done|].
  do 6 (destruct p as [p|p|]; try done).
Qed.

Lemma not_elem_of_suffix (c : N) (t s : jstring) :
  c ∉ s → t `suffix_of` s → c ∉ t.
Proof. intros Hs [k ->] Ht. apply Hs, elem_of_app. by right. Qed.

Lemma find_ci_none p s t :
  find_ci p s = None → t `suffix_of` s → strip_prefix_ci p t = None.
Proof.
  revert t. induction s as [|c s IH]; intros t Hfind Ht.
  - apply suffix_nil_inv in Ht as ->. simpl in Hfind.
    by destruct (strip_prefix_ci p []).
  - simpl in Hfind.
    destruct (strip_prefix_ci p (c :: s)) eqn:Hhere; [done|].
    destruct Ht as [[|x k] Hk]; simpl in Hk; simplify_eq; [done|].
    apply IH; [by destruct (find_ci p (k ++ t))|]. by exists k.
Qed.

Lemma remove_literal_none p s :
  find_ci (lit p) s = None → remove_matches (match_literal p) s = s.
Proof.
  intros Hfind. apply replace_all_none. intros t Ht. unfold match_literal.
  by rewrite (find_ci_none _ _ _ Hfind Ht).
Qed.

Lemma remove_tags_none tags s :
  60%N ∉ s →
  fold_left (λ c tag, remove_matches (match_tag tag) c) tags s = s.
Proof.
  intros Hlt. induction tags as [|tag tags IH]; [done|]. simpl.
  assert (remove_matches (match_tag tag) s = s) as ->; [|done].
  apply replace_all_none. intros t Ht.
  by apply match_tag_none, (not_elem_of_suffix _ _ s).
Qed.

(** X3.  A content of at most 10 MiB that has no ['<'] and, whatever the
    case of the letters, neither [javascript:] nor [data:] in it comes back
    as it is, trimmed. *)
Theorem sanitize_plain_text content :
  60%N ∉ content →
  find_ci (lit "javascript:") content = None →
  find_ci (lit "data:") content = None →
  len content <= max_content_length →
  sanitizeMarkdown content = Ret (trim content).
Proof.
  intros Hlt Hjs Hdata Hlen. rewrite sanitize_unfold.
  destruct content as [|c content]; [done|].
  assert (remove_matches match_script_block (c :: content) = c :: content)
    as ->.
  { apply replace_all_none. intros t Ht.
    by apply match_script_block_none, (not_elem_of_suffix _ _ (c :: content)). }
  rewrite (remove_tags_none _ _ Hlt), (remove_literal_none _ _ Hjs),
    (remove_literal_none _ _ Hdata).
  assert ((len (c :: content) >? max_content_length) = false) as ->
    by (rewrite Z.gtb_ltb; apply Z.ltb_ge; lia).
  done.
Qed.

End SanitizerBounds.

(* ================================================================== *)
(** ** The validator *)

Section ValidatorRules.

Import Rules.

Variable coerce_gt_500 : json -> bool.

Local Abbreviation validateIdeaData := (Validator.validateIdeaData coerce_gt_500).
Local Abbreviation title_too_long := (Validator.title_too_long coerce_gt_500).

(** *** Strings *)

Lemma trim_start_nil s : trim_start s = [] ↔ blank s.
Proof.
  unfold blank. induction s as [|c s IH]; simpl.
  - split; [constructor|done].
  - destruct (is_space c) eqn:Hc.
    + rewrite IH. split; [by constructor|by inversion 1].
    + split; [done|]. inversion 1; congruence.
Qed.

Lemma trim_start_blank s : blank (trim_start s) ↔ blank s.
Proof.
  split.
  - intros H. apply trim_start_nil.
    destruct (trim_start s) as [|c t] eqn:Hs; [done|].
    assert (is_space c = false) as Hc.
    { clear H. induction s as [|x s IH]; [done|]. simpl in Hs.
      destruct (is_space x) eqn:Hx; [by apply IH|]. congruence. }
    inversion H; congruence.
  - intros H. apply trim_start_nil in H. rewrite H. constructor.
Qed.

Lemma trim_nil s : trim s = [] ↔ blank s.
Proof.
  unfold trim. rewrite <- trim_start_blank.
  split.
  - intros H. apply (f_equal (@rev N)) in H. rewrite rev_involutive in H.
    simpl in H. apply trim_start_nil in H.
    apply Forall_rev in H. by rewrite rev_involutive in H.
  - intros H. apply Forall_rev in H. apply trim_start_nil in H.
    by rewrite H.
Qed.

Lemma len_zero s : (len s =? 0) = true ↔ s = [].
Proof.
  unfold len. rewrite Z.eqb_eq. destruct s; simpl; split; (done || lia).
Qed.

Lemma is_hex_ci_spec c : is_hex_ci c = true ↔ hex_digit c.
Proof.
  unfold is_hex_ci, hex_digit, canon.
  destruct ((97 <=? c) && (c <=? 122))%N eqn:Hlower;
    rewrite ?andb_true_iff, ?andb_false_iff, ?orb_true_iff, ?andb_true_iff,
            ?N.leb_le, ?N.leb_gt in *; lia.
Qed.

Lemma hex_color_test_spec s : hex_color_test s = true ↔ hex_color s.
Proof.
  unfold hex_color_test, hex_color. split.
  - destruct s as [|c digits]; [done|].
    rewrite !andb_true_iff, N.eqb_eq, Nat.eqb_eq, forallb_forall.
    intros [[-> Hlen] Hall]. exists digits. split; [done|]. split; [done|].
    apply Forall_forall. intros x Hx. apply is_hex_ci_spec, Hall.
    by apply list_elem_of_In.
  - intros (digits & -> & Hlen & Hall).
    rewrite !andb_true_iff, N.eqb_eq, Nat.eqb_eq, forallb_forall.
    split; [done|].
    intros x Hx. apply is_hex_ci_spec.
    rewrite Forall_forall in Hall. apply Hall. by apply list_elem_of_In.
Qed.

(** *** The tests of the validator against the rules *)

Lemma title_missing_spec (title : option json) :
  title_missing title = false ↔ ∃ s, title = Some (JStr s) ∧ ¬ blank s.
Proof.
  unfold title_missing. split.
  - destruct title as [[| | |s| |]|]; simpl;
      rewrite ?orb_true_r, ?orb_false_r; try done.
    rewrite orb_false_iff. intros [_ Hlen]. exists s. split; [done|].
    intros Hs. apply trim_nil, len_zero in Hs. congruence.
  - intros (s & -> & Hs). simpl. rewrite orb_false_r.
    assert ((len (trim s) =? 0) = false) as ->.
    { apply not_true_is_false. by rewrite len_zero, trim_nil. }
    rewrite orb_false_r. destruct s as [|c s]; [|done].
    exfalso. apply Hs. constructor.
Qed.

Lemma title_too_long_spec s :
  title_too_long (Some (JStr s)) = true ↔ 500 < len s.
Proof.
  unfold Validator.title_too_long. simpl.
  rewrite andb_true_iff, Z.gtb_lt. split; [tauto|].
  intros H. split; [|done]. by destruct s.
Qed.

Lemma title_rule_spec data :
  title_rule data
  ↔ title_missing (prop data "title") = false
    ∧ title_too_long (prop data "title") = false.
Proof.
  unfold title_rule. rewrite title_missing_spec. split.
  - intros (s & Hs & Hblank & Hlen). split; [by exists s|].
    rewrite Hs. apply not_true_iff_false. rewrite title_too_long_spec. lia.
  - intros [(s & Hs & Hblank) Hlen]. exists s. split; [done|]. split; [done|].
    rewrite Hs in Hlen. apply not_true_iff_false in Hlen.
    rewrite title_too_long_spec in Hlen. lia.
Qed.

Lemma description_rule_spec data :
  description_rule data ↔ description_bad (prop data "description") = false.
Proof.
  unfold description_rule, given, description_bad.
  destruct (prop data "description") as [v|]; simpl.
  - destruct (truthy v) eqn:Hv; simpl.
    + split.
      * intros H. by destruct (H v (conj eq_refl Hv)) as (s & ->).
      * destruct v; try done. intros _ ? [[= <-] _]. by eexists.
    + split; [done|]. intros _ ? [[= <-] ?]. congruence.
  - split; [done|]. by intros _ ? [? _].
Qed.

Lemma status_rule_spec data :
  status_rule data ↔ status_bad (prop data "status") = false.
Proof.
  unfold status_rule, given, status_bad.
  destruct (prop data "status") as [v|]; cbn [truthy_prop andb].
  - destruct (truthy v) eqn:Hv; cbn [andb].
    + rewrite negb_false_iff. split.
      * intros H. destruct (H v (conj eq_refl Hv)) as (s & -> & Hs).
        apply existsb_exists. exists s. split; [by apply list_elem_of_In|].
        by apply bool_decide_eq_true.
      * destruct v as [| | |s| |]; try done.
        intros Hs ? [[= <-] _]. exists s. split; [done|].
        apply existsb_exists in Hs as (x & Hx & Heq).
        apply bool_decide_eq_true in Heq as ->. by apply list_elem_of_In.
    + split; [done|]. intros _ ? [[= <-] ?]. congruence.
  - split; [done|]. by intros _ ? [? _].
Qed.

Lemma tags_rule_spec data :
  tags_rule data ↔ tags_bad (prop data "tags") = false.
Proof.
  unfold tags_rule, given, tags_bad.
  destruct (prop data "tags") as [v|]; simpl.
  - destruct (truthy v) eqn:Hv; simpl.
    + split.
      * intros H. destruct (H v (conj eq_refl Hv)) as (items & -> & Hs).
        rewrite negb_false_iff. apply forallb_forall. intros x Hx.
        rewrite Forall_forall in Hs. apply list_elem_of_In in Hx.
        by destruct (Hs x Hx) as (? & ->).
      * destruct v as [| | | |items|]; try done.
        rewrite negb_false_iff, forallb_forall.
        intros Hs ? [[= <-] _]. exists items. split; [done|].
        apply Forall_forall. intros x Hx. apply list_elem_of_In in Hx.
        specialize (Hs x Hx). destruct x; try done. by eexists.
    + split; [done|]. intros _ ? [[= <-] ?]. congruence.
  - split; [done|]. by intros _ ? [? _].
Qed.

Lemma color_rule_spec data :
  color_rule data ↔ color_bad (prop data "color") = false.
Proof.
  unfold color_rule, given, color_bad.
  destruct (prop data "color") as [v|]; simpl.
  - destruct (truthy v) eqn:Hv; simpl.
    + split.
      * intros H. destruct (H v (conj eq_refl Hv)) as (s & -> & Hs).
        apply hex_color_test_spec in Hs. by rewrite Hs.
      * destruct v as [| | |s| |]; try done.
        rewrite negb_false_iff, hex_color_test_spec.
        intros Hs ? [[= <-] _]. by exists s.
    + split; [done|]. intros _ ? [[= <-] ?]. congruence.
  - split; [done|]. by intros _ ? [? _].
Qed.

(** *** The list of errors *)

Lemma elem_of_push msg cond msg' (errors : list string) :
  msg ∈ push cond msg' errors ↔ msg ∈ errors ∨ (cond = true ∧ msg = msg').
Proof.
  unfold push. destruct cond.
  - rewrite elem_of_app, list_elem_of_singleton. intuition.
  - intuition congruence.
Qed.

Lemma push_nil cond msg (errors : list string) :
  push cond msg errors = [] ↔ cond = false ∧ errors = [].
Proof.
  unfold push. destruct cond; [|intuition].
  split; [|intuition congruence].
  intros H. by apply app_eq_nil in H as [_ [=]].
Qed.

Lemma validate_not_null data :
  data ≠ JNull →
  validateIdeaData data
  = Ret (push (color_bad (prop data "color")) msg_color
        (push (tags_bad (prop data "tags")) msg_tags
        (push (status_bad (prop data "status")) msg_status
        (push (description_bad (prop data "description")) msg_description
        (push (title_too_long (prop data "title")) msg_title_length
        (push (title_missing (prop data "title")) msg_title_required [])))))).
Proof. by destruct data. Qed.

Local Ltac other_message :=
  let H := fresh in
  intros [_ H]; vm_compute in H; discriminate H.

Lemma errors_spec data errors msg :
  data ≠ JNull → validateIdeaData data = Ret errors →
  msg ∈ errors
  ↔ (title_missing (prop data "title") = true ∧ msg = msg_title_required)
    ∨ (title_too_long (prop data "title") = true ∧ msg = msg_title_length)
    ∨ (description_bad (prop data "description") = true
       ∧ msg = msg_description)
    ∨ (status_bad (prop data "status") = true ∧ msg = msg_status)
    ∨ (tags_bad (prop data "tags") = true ∧ msg = msg_tags)
    ∨ (color_bad (prop data "color") = true ∧ msg = msg_color).
Proof.
  intros Hdata Herrors. rewrite (validate_not_null _ Hdata) in Herrors.
  injection Herrors as <-. rewrite !elem_of_push, elem_of_nil. tauto.
Qed.

Lemma errors_nil data errors :
  data ≠ JNull → validateIdeaData data = Ret errors →
  errors = []
  ↔ title_missing (prop data "title") = false
    ∧ title_too_long (prop data "title") = false
    ∧ description_bad (prop data "description") = false
    ∧ status_bad (prop data "status") = false
    ∧ tags_bad (prop data "tags") = false
    ∧ color_bad (prop data "color") = false.
Proof.
  intros Hdata Herrors. rewrite (validate_not_null _ Hdata) in Herrors.
  injection Herrors as <-. rewrite !push_nil. tauto.
Qed.

(** Only an object gets through the validator: the branches never spread
    anything else. *)
Lemma valid_is_object data :
  validateIdeaData data = Ret [] → ∃ fields, data = JObj fields.
Proof.
  intros Hvalid.
  assert (data ≠ JNull) as Hdata by (by intros ->).
  destruct (proj1 (errors_nil _ _ Hdata Hvalid) eq_refl) as [Htitle _].
  apply title_missing_spec in Htitle as (s & Hs & _).
  destruct data; try done. by eexists.
Qed.

Lemma not_rule_iff (rule : Prop) (bad : bool) :
  (rule ↔ bad = false) → (bad = true ↔ ¬ rule).
Proof. destruct bad; intuition congruence. Qed.

(** C9.  The validator on a body other than [null] returns a list of
    errors in which every rule speaks for itself: the list is empty exactly
    when the five rules hold, and each message is in the list exactly when
    its rule is broken.  A field counts as given when its value is truthy:
    an empty string, [0], [false] or [null] in [description], [status],
    [tags] or [color] is taken as absent.  So a body without a string title,
    or with a title of whitespace only, gets the title message; a non-empty
    color string gets the color message exactly when it is not ['#'] and six
    hexadecimal digits; an empty color string gets none. *)
Theorem validator_complete data :
  data ≠ JNull →
  ∃ errors,
    validateIdeaData data = Ret errors
    ∧ (errors = []
       ↔ title_rule data ∧ description_rule data ∧ status_rule data
         ∧ tags_rule data ∧ color_rule data)
    ∧ (msg_title_required ∈ errors
       ↔ ¬ ∃ s, prop data "title" = Some (JStr s) ∧ ¬ blank s)
    ∧ (∀ s, prop data "title" = Some (JStr s) →
            (msg_title_length ∈ errors ↔ 500 < len s))
    ∧ (msg_description ∈ errors ↔ ¬ description_rule data)
    ∧ (msg_status ∈ errors ↔ ¬ status_rule data)
    ∧ (msg_tags ∈ errors ↔ ¬ tags_rule data)
    ∧ (msg_color ∈ errors ↔ ¬ color_rule data)
    ∧ (∀ s, prop data "color" = Some (JStr s) → s ≠ [] →
            (msg_color ∈ errors ↔ ¬ hex_color s))
    ∧ (prop data "color" = Some (JStr []) → msg_color ∉ errors).
Proof.
  intros Hdata.
  destruct (validateIdeaData data) as [errors|] eqn:Herrors;
    [|by rewrite validate_not_null in Herrors].
  exists errors. split; [done|].
  pose proof (λ msg, errors_spec data errors msg Hdata Herrors) as Hin.
  assert (msg_color ∈ errors ↔ color_bad (prop data "color") = true)
    as Hcolor.
  { rewrite Hin. split; [|tauto].
    intros [H|[H|[H|[H|[H|H]]]]]; [by exfalso; revert H; other_message..|].
    tauto. }
  split.
  { rewrite (errors_nil _ _ Hdata Herrors), title_rule_spec,
      description_rule_spec, status_rule_spec, tags_rule_spec,
      color_rule_spec. tauto. }
  split.
  { rewrite Hin, <- title_missing_spec. split.
    - intros [H|[H|[H|[H|[H|H]]]]];
        [|by exfalso; revert H; other_message..].
      destruct H as [-> _]. done.
    - intros H. left. split; [|done]. by apply not_false_is_true. }
  split.
  { intros s Hs. rewrite Hin, Hs, <- title_too_long_spec. split; [|tauto].
    intros [H|[H|[H|[H|[H|H]]]]]; try (by exfalso; revert H; other_message).
    tauto. }
  split.
  { rewrite <- (not_rule_iff _ _ (description_rule_spec data)), Hin.
    split; [|tauto].
    intros [H|[H|[H|[H|[H|H]]]]]; try (by exfalso; revert H; other_message).
    tauto. }
  split.
  { rewrite <- (not_rule_iff _ _ (status_rule_spec data)), Hin.
    split; [|tauto].
    intros [H|[H|[H|[H|[H|H]]]]]; try (by exfalso; revert H; other_message).
    tauto. }
  split.
  { rewrite <- (not_rule_iff _ _ (tags_rule_spec data)), Hin.
    split; [|tauto].
    intros [H|[H|[H|[H|[H|H]]]]]; try (by exfalso; revert H; other_message).
    tauto. }
  split.
  { by rewrite <- (not_rule_iff _ _ (color_rule_spec data)). }
  split.
  { intros s Hs Hne. rewrite Hcolor, Hs. unfold color_bad. simpl.
    assert (eqb s [] = false) as -> by (by apply bool_decide_eq_false).
    simpl. rewrite negb_true_iff, <- not_true_iff_false.
    by rewrite hex_color_test_spec. }
  intros Hs. rewrite Hcolor, Hs. done.
Qed.

(** X4.  The errors come in the order of the rules and none comes twice:
    the list is the list of the six messages with some of them left out. *)
Theorem errors_in_order data errors :
  validateIdeaData data = Ret errors →
  errors `sublist_of`
    [msg_title_required; msg_title_length; msg_description; msg_status;
     msg_tags; msg_color].
Proof.
  intros Hvalid.
  assert (data ≠ JNull) as Hdata by (by intros ->).
  rewrite (validate_not_null _ Hdata) in Hvalid. injection Hvalid as <-.
  unfold push.
  destruct (title_missing _), (title_too_long _), (description_bad _),
    (status_bad _), (tags_bad _), (color_bad _); cbn [app];
    repeat first [ apply sublist_nil | apply sublist_skip
                 | apply sublist_cons ].
Qed.

End ValidatorRules.

(* ================================================================== *)
(** ** The pipeline *)

Import Gateway.

Section Pipeline.

Variable RL : Type.
Variable validate_api_key : jstring -> rpc (list KeyData).
Variable check_rate_limit : RL -> jstring -> string -> Z -> rpc bool * RL.
Variable db_defaults : list (gmap string json) -> gmap string json.
Variable db_accepts : list (gmap string json) -> gmap string json -> bool.
Variable db_select_many :
  list (gmap string json) -> Query -> option (list (gmap string json)).
Variable coerce_gt_500 : json -> bool.

Local Abbreviation State := (Gateway.State RL).
Local Abbreviation serve :=
  (Gateway.serve RL validate_api_key check_rate_limit db_defaults db_accepts
                 db_select_many coerce_gt_500).
Local Abbreviation guarded :=
  (Gateway.guarded RL validate_api_key check_rate_limit db_defaults db_accepts
                   db_select_many coerce_gt_500).
Local Abbreviation dispatch :=
  (Gateway.dispatch RL db_defaults db_accepts db_select_many coerce_gt_500).
Local Abbreviation handle_get := (Gateway.handle_get RL db_select_many).
Local Abbreviation handle_post :=
  (Gateway.handle_post RL db_defaults db_accepts coerce_gt_500).
Local Abbreviation handle_put := (Gateway.handle_put RL db_accepts coerce_gt_500).
Local Abbreviation handle_delete := (Gateway.handle_delete RL db_accepts).
Local Abbreviation authenticateApiKey :=
  (Gateway.authenticateApiKey validate_api_key).
Local Abbreviation authenticated := (Gateway.authenticated validate_api_key).
Local Abbreviation admitted := (Gateway.admitted RL check_rate_limit).
Local Abbreviation select_single := (Gateway.select_single RL).
Local Abbreviation update_single := (Gateway.update_single RL db_accepts).
Local Abbreviation insert_single :=
  (Gateway.insert_single RL db_defaults db_accepts).
Local Abbreviation counted := (Gateway.counted RL).

Lemma authenticated_key req keyData :
  authenticated req keyData →
  ∃ c apiKey, x_api_key req = Some (c :: apiKey)
              ∧ authenticateApiKey (c :: apiKey) = Ret keyData.
Proof.
  intros (apiKey & Hkey & Hauth).
  destruct apiKey as [|c apiKey]; [discriminate Hauth|].
  by exists c, apiKey.
Qed.

Lemma guarded_admitted req st keyData rl :
  authenticated req keyData → permitted keyData req → admitted st keyData rl →
  guarded req st = dispatch keyData req (counted st rl).
Proof.
  intros Hauth Hperm Hrl.
  destruct (authenticated_key _ _ Hauth) as (c & apiKey & Hkey & Hk).
  unfold Gateway.guarded, bind, lift. rewrite Hkey, Hk.
  unfold permitted in Hperm. apply orb_true_iff in Hperm.
  replace (negb _ && negb _) with false
    by (symmetry; apply andb_false_iff; rewrite !negb_false_iff; tauto).
  unfold checkRateLimit. unfold Gateway.admitted in Hrl. rewrite Hrl.
  reflexivity.
Qed.

Lemma serve_admitted req st keyData rl :
  method req ≠ "OPTIONS" →
  authenticated req keyData → permitted keyData req → admitted st keyData rl →
  serve req st = catch (dispatch keyData req (counted st rl)).
Proof.
  intros Hm Hauth Hperm Hrl. unfold Gateway.serve.
  apply String.eqb_neq in Hm. rewrite Hm.
  by rewrite (guarded_admitted _ _ _ _ Hauth Hperm Hrl).
Qed.

(** A key that does not resolve: the thrown message goes to the [catch]
    clause, and nothing else happens. *)
Lemma serve_unauthenticated req st c apiKey message :
  method req ≠ "OPTIONS" →
  x_api_key req = Some (c :: apiKey) →
  authenticateApiKey (c :: apiKey) = Throw message →
  serve req st
  = ({| status := 500; body := ErrorBody (error_message message) |}, st).
Proof.
  intros Hm Hkey Hauth. unfold Gateway.serve, Gateway.guarded, bind, lift.
  apply String.eqb_neq in Hm. by rewrite Hm, Hkey, Hauth.
Qed.

(** A request that the limiter refuses. *)
Lemma serve_rate_limited req st keyData rl :
  method req ≠ "OPTIONS" →
  authenticated req keyData → permitted keyData req →
  check_rate_limit (limiter st) (api_key_id keyData) "ai-ideas"
                   (rate_limit_per_hour keyData)
  = (RpcData (Some false), rl) →
  serve req st
  = ({| status := 500; body := ErrorBody "Rate limit exceeded" |},
     counted st rl).
Proof.
  intros Hm Hauth Hperm Hrl.
  destruct (authenticated_key _ _ Hauth) as (c & apiKey & Hkey & Hk).
  unfold Gateway.serve, Gateway.guarded, bind, lift.
  apply String.eqb_neq in Hm. rewrite Hm, Hkey, Hk.
  unfold permitted in Hperm. apply orb_true_iff in Hperm.
  replace (negb _ && negb _) with false
    by (symmetry; apply andb_false_iff; rewrite !negb_false_iff; tauto).
  unfold checkRateLimit. by rewrite Hrl.
Qed.

(** *** The calls on the table *)

Lemma scoped_owner ideaId owner row :
  field_is "user_id" owner row = false → scoped ideaId owner row = false.
Proof. unfold scoped. intros ->. apply andb_false_r. Qed.

Lemma filter_nil {A} (f : A → bool) (l : list A) :
  (∀ x, x ∈ l → f x = false) → List.filter f l = [].
Proof.
  induction l as [|x l IH]; intros H; [done|]. simpl.
  rewrite (H x) by apply list_elem_of_here.
  apply IH. intros y Hy. apply H. by apply list_elem_of_further.
Qed.

Lemma filter_singleton {A} (f : A → bool) (l : list A) x :
  List.filter f l = [x] → x ∈ l ∧ f x = true.
Proof.
  intros H. assert (In x (List.filter f l)) as Hin by (rewrite H; by left).
  apply filter_In in Hin as [Hin ?]. by apply list_elem_of_In in Hin.
Qed.

Lemma select_single_eq ideaId owner (st : State) :
  select_single ideaId owner st
  = (Ret match List.filter (scoped ideaId owner) (ideas st) with
         | [row] => Some row
         | _ => None
         end, st).
Proof.
  unfold Gateway.select_single.
  by destruct (List.filter _ _) as [|? [|? ?]].
Qed.

(** An update answers with an error and changes nothing, or rewrites the one
    row it selects. *)
Lemma update_single_cases patch ideaId owner (st : State) :
  update_single patch ideaId owner st = (Ret None, st)
  ∨ ∃ row,
      List.filter (scoped ideaId owner) (ideas st) = [row]
      ∧ update_single patch ideaId owner st
        = (Ret (Some (patch ∪ row)),
           {| ideas := (λ r, if scoped ideaId owner r then patch ∪ r else r)
                         <$> ideas st;
              limiter := limiter st |}).
Proof.
  unfold Gateway.update_single.
  destruct (List.filter _ _) as [|row [|? ?]]; [by left| |by left].
  destruct (db_accepts _ _); [right|by left]. by exists row.
Qed.

Lemma update_rows_lookup (f : gmap string json → bool)
      (g : gmap string json → gmap string json)
      (rows : list (gmap string json)) (i : nat) row :
  rows !! i = Some row → f row = false →
  ((λ r, if f r then g r else r) <$> rows) !! i = Some row.
Proof. intros Hi Hf. rewrite list_lookup_fmap, Hi. simpl. by rewrite Hf. Qed.

(** An insert answers with an error and changes nothing, or appends the row
    completed with the defaults of the table. *)
Lemma insert_single_cases row (st : State) :
  insert_single row st = (Ret None, st)
  ∨ insert_single row st
    = (Ret (Some (row ∪ db_defaults (ideas st))),
       {| ideas := ideas st ++ [row ∪ db_defaults (ideas st)];
          limiter := limiter st |}).
Proof.
  unfold Gateway.insert_single. destruct (db_accepts _ _); [by right|by left].
Qed.


(** *** The branches *)

(** The branch has answered without writing. *)
Local Ltac stays :=
  left; split; [reflexivity | intros ? ?; by simplify_eq/=].

Lemma handle_get_single keyData req ideaId (st : State) :
  is_idea_id ideaId = true →
  handle_get keyData req ideaId st
  = (Ret match List.filter (scoped ideaId (user_id keyData)) (ideas st) with
         | [row] => {| status := 200; body := DataBody row |}
         | _ => {| status := 404; body := ErrorBody "Idea not found" |}
         end, st).
Proof.
  intros Hid. unfold Gateway.handle_get, bind. rewrite Hid, select_single_eq.
  by destruct (List.filter _ _) as [|? [|? ?]].
Qed.

Lemma handle_get_collection keyData req ideaId (st : State) :
  is_idea_id ideaId = false →
  handle_get keyData req ideaId st
  = (Ret match db_select_many (ideas st)
                 (collection_query keyData (searchParams req)) with
         | Some rows =>
             {| status := 200;
                body := ListBody rows (effective_limit (searchParams req))
                                 (effective_offset (searchParams req))
                                 (length rows) |}
         | None => {| status := 500; body := ErrorBody "Failed to fetch ideas" |}
         end, st).
Proof.
  intros Hid. unfold Gateway.handle_get, bind, select_many. rewrite Hid.
  by destruct (db_select_many _ _).
Qed.

(** A POST stores nothing and does not answer 201, or appends one row, which
    carries the [user_id] of the key, and answers 201 with it. *)
Lemma handle_post_cases keyData req (st : State) :
  ((handle_post keyData req st).2 = st
   ∧ ∀ response, (handle_post keyData req st).1 = Ret response →
                 status response ≠ 201)
  ∨ ∃ stored,
      handle_post keyData req st
      = (Ret {| status := 201; body := DataBody stored |},
         {| ideas := ideas st ++ [stored]; limiter := limiter st |})
      ∧ stored !! "user_id" = Some (JStr (user_id keyData)).
Proof.
  unfold Gateway.handle_post, bind, lift, respond, ret.
  destruct (json_body req) as [createData|]; [|stays].
  destruct (validateIdeaData _ _) as [[|]|]; [|stays..].
  destruct (sanitize_prop (prop createData "title")) as [title|]; [|stays].
  pose (row description :=
          <["user_id" := JStr (user_id keyData)]>
            (<["description" := description]>
               (<["title" := JStr title]> (spread createData)))).
  assert (∀ description,
             (row description ∪ db_defaults (ideas st)) !! "user_id"
             = Some (JStr (user_id keyData))) as Howner.
  { intros d. apply lookup_union_Some_l. apply lookup_insert_eq. }
  destruct (truthy_prop (prop createData "description")).
  - destruct (sanitize_prop (prop createData "description")) as [d|];
      [|stays].
    destruct (insert_single_cases (row (JStr d)) st) as [H | H];
      unfold row in H; rewrite H; [stays|right].
    eexists. split; [reflexivity|apply Howner].
  - destruct (insert_single_cases (row JNull) st) as [H | H];
      unfold row in H; rewrite H; [stays|right].
    eexists. split; [reflexivity|apply Howner].
Qed.

(** An update (a PUT, or the archiving of a DELETE) leaves the state as it
    is, or rewrites the one row selected by the id and the owner. *)
Lemma handle_put_cases keyData req ideaId (st : State) :
  ((handle_put keyData req ideaId st).2 = st
   ∧ ∀ response, (handle_put keyData req ideaId st).1 = Ret response →
                 status response ≠ 200)
  ∨ ∃ updateData patch row,
      json_body req = Ret updateData
      ∧ validateIdeaData coerce_gt_500 updateData = Ret []
      ∧ sanitizedUpdateData updateData = Ret patch
      ∧ List.filter (scoped ideaId (user_id keyData)) (ideas st) = [row]
      ∧ handle_put keyData req ideaId st
        = (Ret {| status := 200; body := DataBody (patch ∪ row) |},
           {| ideas := (λ r, if scoped ideaId (user_id keyData) r
                             then patch ∪ r else r) <$> ideas st;
              limiter := limiter st |}).
Proof.
  unfold Gateway.handle_put, bind, lift, respond, ret.
  destruct (negb (is_idea_id ideaId)); [stays|].
  destruct (json_body req) as [updateData|]; [|stays].
  destruct (validateIdeaData _ _) as [[|]|] eqn:Hvalid; [|stays..].
  destruct (sanitizedUpdateData updateData) as [patch|] eqn:Hpatch; [|stays].
  destruct (update_single_cases patch ideaId (user_id keyData) st)
    as [-> | (row & Hrow & ->)]; [stays|right].
  by exists updateData, patch, row.
Qed.

Lemma handle_delete_cases keyData ideaId (st : State) :
  is_idea_id ideaId = true →
  handle_delete keyData ideaId st
  = (Ret {| status := 404;
            body := ErrorBody "Failed to delete idea or idea not found" |}, st)
  ∨ ∃ row,
      List.filter (scoped ideaId (user_id keyData)) (ideas st) = [row]
      ∧ handle_delete keyData ideaId st
        = (Ret {| status := 200;
                  body := ArchivedBody (archived_patch ∪ row)
                                       "Idea archived successfully" |},
           {| ideas := (λ r, if scoped ideaId (user_id keyData) r
                             then archived_patch ∪ r else r) <$> ideas st;
              limiter := limiter st |}).
Proof.
  intros Hid. unfold Gateway.handle_delete, bind, respond, ret. rewrite Hid.
  simpl.
  destruct (update_single_cases archived_patch ideaId (user_id keyData) st)
    as [-> | (row & Hrow & ->)]; [by left|right].
  by exists row.
Qed.

Lemma dispatch_method keyData req :
  dispatch keyData req
  = let ideaId := last_segment (pathname req) in
    if String.eqb (method req) "GET" then handle_get keyData req ideaId
    else if String.eqb (method req) "POST" then handle_post keyData req
    else if String.eqb (method req) "PUT" then handle_put keyData req ideaId
    else if String.eqb (method req) "DELETE" then handle_delete keyData ideaId
    else respond RL 405 (ErrorBody "Method not allowed").
Proof. reflexivity. Qed.


Lemma dispatch_get keyData req :
  method req = "GET" →
  dispatch keyData req = handle_get keyData req (last_segment (pathname req)).
Proof. intros H. by rewrite dispatch_method, H. Qed.

Lemma dispatch_post keyData req :
  method req = "POST" → dispatch keyData req = handle_post keyData req.
Proof. intros H. by rewrite dispatch_method, H. Qed.

Lemma dispatch_put keyData req :
  method req = "PUT" →
  dispatch keyData req = handle_put keyData req (last_segment (pathname req)).
Proof. intros H. by rewrite dispatch_method, H. Qed.

Lemma dispatch_delete keyData req :
  method req = "DELETE" →
  dispatch keyData req = handle_delete keyData (last_segment (pathname req)).
Proof. intros H. by rewrite dispatch_method, H. Qed.

Lemma catch_snd (outcome : exn Response * State) :
  (catch outcome).2 = outcome.2.
Proof. by destruct outcome as [[?|?] ?]. Qed.

Lemma handle_delete_no_id keyData ideaId (st : State) :
  is_idea_id ideaId = false →
  handle_delete keyData ideaId st
  = (Ret {| status := 400; body := ErrorBody "Idea ID required for deletion" |},
     st).
Proof. intros Hid. unfold Gateway.handle_delete. by rewrite Hid. Qed.

(** Whatever the method, a row that the id and the owner do not select is
    still in its place after the branch has run, and no row is dropped. *)
Lemma dispatch_keeps_rows keyData req (st : State) :
  let ideaId := last_segment (pathname req) in
  let st' := (dispatch keyData req st).2 in
  (length (ideas st) ≤ length (ideas st'))%nat
  ∧ (method req ≠ "POST" → length (ideas st') = length (ideas st))
  ∧ ∀ (i : nat) row,
      ideas st !! i = Some row →
      scoped ideaId (user_id keyData) row = false →
      ideas st' !! i = Some row.
Proof.
  intros ideaId st'. subst st'. rewrite dispatch_method. fold ideaId.
  cbv zeta.
  destruct (String.eqb (method req) "GET") eqn:Hget.
  { destruct (is_idea_id ideaId) eqn:Hid.
    - by rewrite handle_get_single.
    - by rewrite handle_get_collection. }
  destruct (String.eqb (method req) "POST") eqn:Hpost.
  { apply String.eqb_eq in Hpost.
    destruct (handle_post_cases keyData req st) as [[-> _]|(stored & -> & _)];
      [done|]. simpl. rewrite length_app. simpl.
    split; [lia|]. split; [done|].
    intros i row Hi _. by apply lookup_app_l_Some. }
  destruct (String.eqb (method req) "PUT") eqn:Hput.
  { destruct (handle_put_cases keyData req ideaId st)
      as [[-> _]|(? & patch & ? & _ & _ & _ & _ & ->)]; [done|].
    simpl. rewrite length_fmap. split; [done|]. split; [done|].
    intros i row Hi Hrow. by apply update_rows_lookup. }
  destruct (String.eqb (method req) "DELETE") eqn:Hdel; [|done].
  destruct (is_idea_id ideaId) eqn:Hid;
    [|by rewrite handle_delete_no_id].
  destruct (handle_delete_cases keyData ideaId st Hid)
    as [-> | (? & _ & ->)]; [done|].
  simpl. rewrite length_fmap. split; [done|]. split; [done|].
  intros i row Hi Hrow. by apply update_rows_lookup.
Qed.


(* ------------------------------------------------------------------ *)
(** *** Owner isolation *)

(** A request is stopped before the switch, and then the table is as it
    was, or it has got through the three checks. *)
Lemma serve_cases req (st : State) :
  ideas (serve req st).2 = ideas st
  ∨ ∃ keyData rl,
      authenticated req keyData ∧ permitted keyData req
      ∧ admitted st keyData rl.
Proof.
  unfold Gateway.serve.
  destruct (String.eqb (method req) "OPTIONS"); [by left|].
  unfold Gateway.guarded, bind, lift.
  destruct (x_api_key req) as [[|c apiKey]|] eqn:Hkey; [by left| |by left].
  destruct (authenticateApiKey (c :: apiKey)) as [keyData|] eqn:Hauth;
    [|by left].
  destruct (negb (includes (permissions keyData) (requiredPermission req))
            && negb (includes (permissions keyData) "admin")) eqn:Hperm;
    [by left|].
  unfold checkRateLimit.
  destruct (check_rate_limit _ _ _ _) as [answer rl] eqn:Hrl.
  destruct answer as [|[[|]|]]; [by left| |by left..].
  right. exists keyData, rl. split; [by exists (c :: apiKey)|]. split; [|done].
  unfold permitted. apply andb_false_iff in Hperm.
  rewrite !negb_false_iff in Hperm. by apply orb_true_iff.
Qed.

(** C1.  Owner isolation.  For every request, a row of the table that does
    not belong to the owner of the key that the request authenticates with
    (any row, when it authenticates with none) is the same row, in the same
    place, after the request.  For a request that authenticates with a key
    of owner [owner], has the permission and passes the rate limit:
    - a GET of a single idea leaves the table as it is; when every row with
      that id belongs to somebody else the answer is 404, and a row that is
      returned has that id and belongs to [owner];
    - a GET of the collection returns what the table answers to a query
      filtered on [owner];
    - a POST answers 201 only after appending one row, and that row carries
      [owner] as its [user_id], whatever the body says;
    - a PUT or a DELETE drops no row and changes no row other than the one
      that the id and [owner] select. *)
Theorem owner_isolation req (st : State) :
  let ideaId := last_segment (pathname req) in
  let response := (serve req st).1 in
  let st' := (serve req st).2 in
  (∀ (i : nat) row,
      ideas st !! i = Some row →
      (∀ keyData, authenticated req keyData →
                  field_is "user_id" (user_id keyData) row = false) →
      ideas st' !! i = Some row)
  ∧ ∀ keyData rl,
      authenticated req keyData → permitted keyData req →
      admitted st keyData rl →
      let owner := user_id keyData in
      (method req = "GET" → is_idea_id ideaId = true →
       ideas st' = ideas st
       ∧ ((∀ row, row ∈ ideas st → field_is "id" ideaId row = true →
                  field_is "user_id" owner row = false) →
          response = {| status := 404; body := ErrorBody "Idea not found" |})
       ∧ (∀ row, body response = DataBody row →
                 row ∈ ideas st ∧ field_is "id" ideaId row = true
                 ∧ field_is "user_id" owner row = true))
      ∧ (method req = "GET" → is_idea_id ideaId = false →
         ideas st' = ideas st
         ∧ ∀ rows limit offset count,
             body response = ListBody rows limit offset count →
             ∃ q, db_select_many (ideas st) q = Some rows
                  ∧ q_user_id q = owner)
      ∧ (method req = "POST" →
         (status response = 201 →
          ∃ stored, body response = DataBody stored
                    ∧ stored !! "user_id" = Some (JStr owner)
                    ∧ ideas st' = ideas st ++ [stored])
         ∧ (status response ≠ 201 → ideas st' = ideas st))
      ∧ (method req = "PUT" ∨ method req = "DELETE" →
         length (ideas st') = length (ideas st)
         ∧ ∀ (i : nat) row,
             ideas st !! i = Some row → scoped ideaId owner row = false →
             ideas st' !! i = Some row).
Proof.
  intros ideaId response st'.
  assert (∀ keyData rl,
             authenticated req keyData → permitted keyData req →
             admitted st keyData rl →
             method req ≠ "OPTIONS" →
             serve req st = catch (dispatch keyData req (counted st rl))
             ∧ ideas st' = ideas (dispatch keyData req (counted st rl)).2)
    as Hrun.
  { intros keyData rl Hauth Hperm Hrl Hoptions.
    pose proof (serve_admitted _ _ _ _ Hoptions Hauth Hperm Hrl) as Hserve.
    split; [done|]. subst st'. by rewrite Hserve, catch_snd. }
  split.
  { intros i row Hi Hother.
    destruct (serve_cases req st) as [Hsame|(keyData & rl & Hauth & Hperm & Hrl)].
    { subst st'. by rewrite Hsame. }
    destruct (String.eqb (method req) "OPTIONS") eqn:Hoptions.
    { subst st'. unfold Gateway.serve. by rewrite Hoptions. }
    apply String.eqb_neq in Hoptions.
    destruct (Hrun _ _ Hauth Hperm Hrl Hoptions) as [_ ->].
    apply (dispatch_keeps_rows keyData req (counted st rl)); [done|].
    apply scoped_owner. by apply Hother. }
  intros keyData rl Hauth Hperm Hrl owner.
  destruct (String.eqb (method req) "OPTIONS") eqn:Hoptions.
  { apply String.eqb_eq in Hoptions. rewrite Hoptions.
    repeat apply conj; try done. by intros [|]. }
  apply String.eqb_neq in Hoptions.
  destruct (Hrun _ _ Hauth Hperm Hrl Hoptions) as [Hserve Hst'].
  pose proof (dispatch_keeps_rows keyData req (counted st rl))
    as (Hlen & Hsame & Hkeep).
  fold ideaId owner in Hkeep.
  rewrite <- Hst' in Hlen, Hsame, Hkeep. simpl in Hlen, Hsame, Hkeep.
  split.
  { intros Hget Hid. subst response. rewrite Hst', Hserve.
    rewrite (dispatch_get _ _ Hget). fold ideaId.
    rewrite (handle_get_single _ _ _ _ Hid). simpl. split; [done|].
    fold owner. split.
    - intros Hother. rewrite filter_nil; [done|].
      intros row Hin. unfold scoped.
      destruct (field_is "id" ideaId row) eqn:Hrow; [|done].
      by rewrite (Hother row Hin Hrow).
    - intros row.
      destruct (List.filter _ _) as [|found [|? ?]] eqn:Hfilter;
        simpl; intros [= <-].
      apply filter_singleton in Hfilter as [Hin Hscoped].
      unfold scoped in Hscoped. apply andb_true_iff in Hscoped. tauto. }
  split.
  { intros Hget Hid. subst response. rewrite Hst', Hserve.
    rewrite (dispatch_get _ _ Hget). fold ideaId.
    rewrite (handle_get_collection _ _ _ _ Hid). simpl. split; [done|].
    intros rows limit offset count.
    destruct (db_select_many _ _) as [found|] eqn:Hquery; simpl;
      intros [= <- _ _ _].
    by eexists. }
  split.
  { intros Hpost. subst response. rewrite Hst', Hserve.
    rewrite (dispatch_post _ _ Hpost).
    destruct (handle_post_cases keyData req (counted st rl))
      as [[Hstate Hstatus]|(stored & -> & Howner)].
    - destruct (handle_post keyData req (counted st rl)) as [[r|e] s].
      + simpl in *. subst s. split; [|done].
        intros H201. by destruct (Hstatus r eq_refl).
      + simpl in *. subst s. split; [|done]. intros [=].
    - simpl. split; [|done]. intros _. by exists stored. }
  intros Hmethod. split.
  - apply Hsame. by destruct Hmethod as [-> | ->].
  - done.
Qed.


(* ------------------------------------------------------------------ *)
(** *** Logical delete *)

Lemma update_single_ok patch ideaId owner (st : State) row :
  List.filter (scoped ideaId owner) (ideas st) = [row] →
  db_accepts (List.filter (λ r, negb (scoped ideaId owner r)) (ideas st))
             (patch ∪ row) = true →
  update_single patch ideaId owner st
  = (Ret (Some (patch ∪ row)),
     {| ideas := (λ r, if scoped ideaId owner r then patch ∪ r else r)
                   <$> ideas st;
        limiter := limiter st |}).
Proof. intros Hrow Hok. unfold Gateway.update_single. by rewrite Hrow, Hok. Qed.

Lemma handle_delete_ok keyData ideaId (st : State) row :
  is_idea_id ideaId = true →
  List.filter (scoped ideaId (user_id keyData)) (ideas st) = [row] →
  db_accepts (List.filter (λ r, negb (scoped ideaId (user_id keyData) r))
                          (ideas st))
             (archived_patch ∪ row) = true →
  handle_delete keyData ideaId st
  = (Ret {| status := 200;
            body := ArchivedBody (archived_patch ∪ row)
                                 "Idea archived successfully" |},
     {| ideas := (λ r, if scoped ideaId (user_id keyData) r
                       then archived_patch ∪ r else r) <$> ideas st;
        limiter := limiter st |}).
Proof.
  intros Hid Hrow Hok. unfold Gateway.handle_delete, bind. rewrite Hid.
  cbn [negb]. by rewrite (update_single_ok _ _ _ _ _ Hrow Hok).
Qed.

Lemma handle_delete_missing keyData ideaId (st : State) :
  is_idea_id ideaId = true →
  List.filter (scoped ideaId (user_id keyData)) (ideas st) = [] →
  handle_delete keyData ideaId st
  = (Ret {| status := 404;
            body := ErrorBody "Failed to delete idea or idea not found" |}, st).
Proof.
  intros Hid Hrow. unfold Gateway.handle_delete. rewrite Hid. cbn [negb].
  unfold bind, Gateway.update_single. by rewrite Hrow.
Qed.

Lemma field_is_union k s (patch row : gmap string json) :
  patch !! k = None → field_is k s (patch ∪ row) = field_is k s row.
Proof. intros Hk. unfold field_is. by rewrite lookup_union_r. Qed.

Lemma scoped_archived ideaId owner (row : gmap string json) :
  scoped ideaId owner (archived_patch ∪ row) = scoped ideaId owner row.
Proof. unfold scoped. by rewrite !field_is_union. Qed.

(** The rows selected after an update that touches neither [id] nor
    [user_id] are the updated rows of those selected before. *)
Lemma filter_updated (f : gmap string json → bool)
      (g : gmap string json → gmap string json)
      (rows : list (gmap string json)) :
  (∀ r, f (g r) = f r) →
  List.filter f ((λ r, if f r then g r else r) <$> rows)
  = g <$> List.filter f rows.
Proof.
  intros Hfg. induction rows as [|r rows IH]; [done|].
  rewrite fmap_cons. cbn [List.filter]. destruct (f r) eqn:Hr.
  - by rewrite Hfg, Hr, fmap_cons, IH.
  - by rewrite Hr.
Qed.

(** C7.  Logical delete.  For a DELETE with an id in the path, by a key of
    owner [owner] that has the permission and passes the rate limit:
    - no row leaves the table;
    - when the id and [owner] select one row and the table accepts its
      archived version, the answer is 200 with that row, its [status] set to
      [archived] and every other field as before; the archived row takes the
      place of the row in the table, and a GET of the same id that follows,
      by a key of the same owner, answers 200 with the archived row;
    - when no row with that id belongs to [owner], the answer is 404 and the
      table is unchanged. *)
Theorem delete_archives req (st : State) keyData rl :
  method req = "DELETE" →
  authenticated req keyData → permitted keyData req → admitted st keyData rl →
  is_idea_id (last_segment (pathname req)) = true →
  let owner := user_id keyData in
  let ideaId := last_segment (pathname req) in
  let st' := (serve req st).2 in
  length (ideas st') = length (ideas st)
  ∧ (∀ row,
       List.filter (scoped ideaId owner) (ideas st) = [row] →
       db_accepts (List.filter (λ r, negb (scoped ideaId owner r)) (ideas st))
                  (archived_patch ∪ row) = true →
       let archived := archived_patch ∪ row in
       (serve req st).1
       = {| status := 200;
            body := ArchivedBody archived "Idea archived successfully" |}
       ∧ archived !! "status" = Some (JStr (lit "archived"))
       ∧ (∀ k, k ≠ "status" → archived !! k = row !! k)
       ∧ (∀ i : nat, ideas st !! i = Some row → ideas st' !! i = Some archived)
       ∧ archived ∈ ideas st'
       ∧ ∀ req2 keyData2 rl2,
           method req2 = "GET" → last_segment (pathname req2) = ideaId →
           authenticated req2 keyData2 → user_id keyData2 = owner →
           permitted keyData2 req2 → admitted st' keyData2 rl2 →
           serve req2 st'
           = ({| status := 200; body := DataBody archived |}, counted st' rl2))
  ∧ ((∀ row, row ∈ ideas st → field_is "id" ideaId row = true →
             field_is "user_id" owner row = false) →
     serve req st
     = ({| status := 404;
           body := ErrorBody "Failed to delete idea or idea not found" |},
        counted st rl)).
Proof.
  intros Hdelete Hauth Hperm Hrl Hid owner ideaId st'.
  assert (method req ≠ "OPTIONS") as Hoptions by by rewrite Hdelete.
  pose proof (serve_admitted _ _ _ _ Hoptions Hauth Hperm Hrl) as Hserve.
  rewrite (dispatch_delete _ _ Hdelete) in Hserve. fold ideaId in Hserve, Hid.
  split; [|split].
  - subst st'. rewrite Hserve, catch_snd.
    destruct (handle_delete_cases keyData ideaId (counted st rl) Hid)
      as [-> | (? & _ & ->)]; [done|].
    simpl. by rewrite length_fmap.
  - intros row Hrow Hok archived.
    rewrite (handle_delete_ok _ _ (counted st rl) row Hid Hrow Hok) in Hserve.
    subst st'. rewrite Hserve. cbn [catch fst snd ideas counted].
    apply filter_singleton in Hrow as Hrow'. destruct Hrow' as [Hin Hscoped].
    split; [done|]. split.
    { by apply lookup_union_Some_l, lookup_singleton_eq. }
    split.
    { intros k Hk. subst archived. apply lookup_union_r.
      by apply lookup_singleton_ne. }
    split.
    { intros i Hi. rewrite list_lookup_fmap, Hi. simpl.
      fold owner. by rewrite Hscoped. }
    split.
    { apply list_elem_of_fmap. exists row. fold owner. by rewrite Hscoped. }
    intros req2 keyData2 rl2 Hget Hpath Hauth2 Howner Hperm2 Hrl2.
    assert (method req2 ≠ "OPTIONS") as Hoptions2 by by rewrite Hget.
    rewrite (serve_admitted _ _ _ _ Hoptions2 Hauth2 Hperm2 Hrl2).
    rewrite (dispatch_get _ _ Hget), Hpath.
    rewrite (handle_get_single _ _ _ _ Hid), Howner. simpl. fold owner.
    rewrite (filter_updated _ _ _ (scoped_archived ideaId owner)), Hrow.
    done.
  - intros Hother. rewrite Hserve.
    rewrite handle_delete_missing; [done..|].
    apply filter_nil. intros row Hin. unfold scoped. fold owner.
    destruct (field_is "id" ideaId row) eqn:Hrow; [|done].
    by rewrite (Hother row Hin Hrow).
Qed.


(* ------------------------------------------------------------------ *)
(** *** Falsy fields in an update *)

Local Ltac refused :=
  left; eexists; split; [reflexivity|]; split; [done|]; by intros ? [=].

(** A PUT answers something else than a row and writes nothing, or rewrites
    the selected row with the patch and answers with it. *)
Lemma handle_put_outcome keyData req ideaId (st : State) :
  (∃ response,
      catch (handle_put keyData req ideaId st) = (response, st)
      ∧ status response ≠ 200 ∧ ∀ updated, body response ≠ DataBody updated)
  ∨ ∃ updateData patch row,
      json_body req = Ret updateData
      ∧ sanitizedUpdateData updateData = Ret patch
      ∧ List.filter (scoped ideaId (user_id keyData)) (ideas st) = [row]
      ∧ catch (handle_put keyData req ideaId st)
        = ({| status := 200; body := DataBody (patch ∪ row) |},
           {| ideas := (λ r, if scoped ideaId (user_id keyData) r
                             then patch ∪ r else r) <$> ideas st;
              limiter := limiter st |}).
Proof.
  unfold Gateway.handle_put, bind, lift, respond, ret.
  destruct (negb (is_idea_id ideaId)); [refused|].
  destruct (json_body req) as [updateData|]; [|refused].
  destruct (validateIdeaData _ _) as [[|]|] eqn:Hvalid; [|refused..].
  destruct (sanitizedUpdateData updateData) as [patch|] eqn:Hpatch;
    [|refused].
  destruct (update_single_cases patch ideaId (user_id keyData) st)
    as [-> | (row & Hrow & ->)]; [refused|right].
  by exists updateData, patch, row.
Qed.

Lemma patch_without_description updateData patch :
  truthy_prop (prop updateData "description") = false →
  sanitizedUpdateData updateData = Ret patch →
  patch !! "description" = None.
Proof.
  unfold sanitizedUpdateData. intros ->.
  destruct (if truthy_prop (prop updateData "title") then _ else _);
    [|done].
  intros [= <-]. by rewrite lookup_omap, lookup_insert_eq.
Qed.

(** C10.  Falsy [title] or [description] in the body of a PUT that has an id
    in its path, authenticates, has the permission and passes the rate
    limit; the body is not [null].
    - A falsy [title]: the validator reports it, the answer is 400 and
      nothing is written.
    - A falsy [description]: the validator does not report it, the patch has
      no [description], every row of the table keeps its [description], and
      a row that is returned has the [description] of a row that was
      there. *)
Theorem put_falsy_fields req (st : State) keyData rl updateData :
  method req = "PUT" →
  authenticated req keyData → permitted keyData req → admitted st keyData rl →
  is_idea_id (last_segment (pathname req)) = true →
  json_body req = Ret updateData → updateData ≠ JNull →
  let response := (serve req st).1 in
  let st' := (serve req st).2 in
  (∀ title,
      prop updateData "title" = Some title → truthy title = false →
      ∃ details,
        serve req st
        = ({| status := 400;
              body := ValidationBody "Validation failed" details |},
           counted st rl)
        ∧ msg_title_required ∈ details)
  ∧ (truthy_prop (prop updateData "description") = false →
     (∀ details,
         validateIdeaData coerce_gt_500 updateData = Ret details →
         msg_description ∉ details)
     ∧ (∀ patch,
           sanitizedUpdateData updateData = Ret patch →
           patch !! "description" = None)
     ∧ (∀ (i : nat) row,
           ideas st !! i = Some row →
           ∃ row', ideas st' !! i = Some row'
                   ∧ row' !! "description" = row !! "description")
     ∧ (∀ updated,
           body response = DataBody updated →
           ∃ row, row ∈ ideas st
                  ∧ updated !! "description" = row !! "description")).
Proof.
  intros Hput Hauth Hperm Hrl Hid Hbody Hdata response st'.
  assert (method req ≠ "OPTIONS") as Hoptions by by rewrite Hput.
  pose proof (serve_admitted _ _ _ _ Hoptions Hauth Hperm Hrl) as Hserve.
  rewrite (dispatch_put _ _ Hput) in Hserve.
  set (ideaId := last_segment (pathname req)) in *.
  split.
  - intros title Hgiven Hfalsy.
    assert (truthy_prop (prop updateData "title") = false) as Htitle
      by by rewrite Hgiven.
    destruct (validateIdeaData coerce_gt_500 updateData) as [details|]
      eqn:Hvalid; [|by rewrite validate_not_null in Hvalid].
    assert (msg_title_required ∈ details) as Hin.
    { apply (errors_spec coerce_gt_500 updateData); [done..|]. left.
      split; [|done]. unfold title_missing. by rewrite Htitle. }
    exists details. split; [|done]. rewrite Hserve.
    unfold Gateway.handle_put, bind, lift. rewrite Hid, Hbody, Hvalid.
    destruct details as [|? ?]; [|done]. by apply elem_of_nil in Hin.
  - intros Hdescription. split; [|split; [|split]].
    + intros details Hvalid Hin.
      apply (errors_spec coerce_gt_500 updateData) in Hin; [|done..].
      destruct Hin as [H|[H|[H|[H|[H|H]]]]];
        try (destruct H as [_ H]; vm_compute in H; discriminate H).
      destruct H as [H _]. unfold description_bad in H.
      by rewrite Hdescription in H.
    + intros patch. by apply patch_without_description.
    + intros i row Hi. subst st'. rewrite Hserve.
      destruct (handle_put_outcome keyData req ideaId (counted st rl))
        as [(r & -> & _)|(data & patch & ? & Hdata' & Hpatch & _ & ->)].
      * by exists row.
      * cbn [snd ideas counted]. rewrite list_lookup_fmap, Hi.
        eexists. split; [done|].
        destruct (scoped _ _ row); [|done].
        apply lookup_union_r. apply (patch_without_description data); [|done].
        congruence.
    + intros updated. subst response. rewrite Hserve.
      destruct (handle_put_outcome keyData req ideaId (counted st rl))
        as [(r & -> & _ & Hr)|(data & patch & row & Hdata' & Hpatch & Hrow & ->)].
      * intros H. by destruct (Hr updated).
      * cbn [fst body]. intros [= <-]. exists row.
        apply filter_singleton in Hrow as [Hin _]. split; [done|].
        apply lookup_union_r. apply (patch_without_description data); [|done].
        congruence.
Qed.


(* ------------------------------------------------------------------ *)
(** *** The parameters of a collection query *)

Lemma digit_val_decimal c :
  Rules.decimal_digit c → digit_val 10 c = Some (Z.of_N c - 48).
Proof.
  unfold Rules.decimal_digit, digit_val. intros [Hlo Hhi].
  assert ((48 <=? Z.of_N c) && (Z.of_N c <=? 57) = true) as ->
    by (apply andb_true_iff; rewrite !Z.leb_le; lia).
  assert ((Z.of_N c - 48 <? 10) = true) as -> by (apply Z.ltb_lt; lia).
  done.
Qed.

Lemma parse_digits_decimal digits acc :
  Forall Rules.decimal_digit digits →
  parse_digits 10 (Some acc) digits
  = Some (fold_left (λ a c, 10 * a + (Z.of_N c - 48)) digits acc).
Proof.
  intros Hall. revert acc.
  induction Hall as [|c digits Hc _ IH]; intros acc; [done|].
  simpl. rewrite (digit_val_decimal _ Hc). simpl. apply IH.
Qed.

Lemma decimal_not_space c : Rules.decimal_digit c → is_space c = false.
Proof.
  unfold Rules.decimal_digit, is_space. intros [Hlo Hhi].
  rewrite !orb_false_iff, !andb_false_iff, !N.leb_gt, !N.eqb_neq. lia.
Qed.

Lemma parse_unsigned_decimal digits :
  digits ≠ [] → Forall Rules.decimal_digit digits →
  parse_digits 10 None digits = Some (Rules.decimal_value digits).
Proof.
  intros Hne Hall. destruct Hall as [|c digits Hc Hall]; [done|].
  simpl. rewrite (digit_val_decimal _ Hc). simpl.
  by rewrite (parse_digits_decimal _ _ Hall).
Qed.

Local Ltac decimal_radix Hall Hvalue :=
  destruct Hall as [|? ? [? ?] ?];
  [|match goal with
    | |- context [((?x =? 120) || (?x =? 88))%N] =>
        assert (((x =? 120) || (x =? 88))%N = false) as ->
          by (rewrite orb_false_iff, !N.eqb_neq; lia)
    end; rewrite andb_false_r];
  rewrite Hvalue; f_equal; lia.

(** [parseInt] reads a string of decimal digits as the Number for the
    integer it writes, and for its opposite after a minus sign. *)
Lemma parseInt_decimal digits :
  digits ≠ [] → Forall Rules.decimal_digit digits →
  parseInt digits = JsNum.of_Z (Rules.decimal_value digits)
  ∧ parseInt (45%N :: digits) = JsNum.of_Z (- Rules.decimal_value digits).
Proof.
  intros Hne Hall. pose proof (parse_unsigned_decimal _ Hne Hall) as Hvalue.
  destruct Hall as [|c digits Hc Hall]; [done|].
  pose proof (decimal_not_space _ Hc) as Hspace.
  destruct Hc as [Hlo Hhi]. unfold parseInt.
  assert ((c =? 45)%N = false) as Hminus by (apply N.eqb_neq; lia).
  assert ((c =? 43)%N = false) as Hplus by (apply N.eqb_neq; lia).
  split.
  - cbn [trim_start]. rewrite Hspace, Hminus, Hplus. cbv beta iota zeta.
    decimal_radix Hall Hvalue.
  - cbn [trim_start]. change (is_space 45) with false. cbv beta iota zeta.
    change (45 =? 45)%N with true. cbv beta iota zeta.
    decimal_radix Hall Hvalue.
Qed.

Lemma decimal_value_nonneg digits :
  Forall Rules.decimal_digit digits → 0 <= Rules.decimal_value digits.
Proof.
  intros Hall. unfold Rules.decimal_value.
  assert (∀ acc, 0 <= acc →
            0 <= fold_left (λ a c, 10 * a + (Z.of_N c - 48)) digits acc)
    as H; [|by apply H].
  induction Hall as [|c digits [Hlo Hhi] _ IH]; intros acc Hacc; [done|].
  simpl. apply IH. lia.
Qed.

(** *** The Number for an integer *)

Local Abbreviation two53 := 9007199254740992 (only parsing).

Lemma of_Z_small z : Z.abs z <= two53 → JsNum.of_Z z = Num z.
Proof.
  intros Hz. unfold JsNum.of_Z. change (2 ^ 53) with two53.
  destruct (Z.ltb_spec (Z.abs z) two53) as [|Hge]; [done|].
  assert (z = two53 ∨ z = - two53) as [-> | ->] by lia;
    vm_compute; reflexivity.
Qed.

(** Beyond 2^53 the Number is an infinity of the sign of the integer, or a
    finite Number of that sign that is no nearer to zero than 2^53. *)
Lemma of_Z_large z :
  two53 <= Z.abs z →
  JsNum.of_Z z = Infinity (z <? 0)
  ∨ ∃ m, JsNum.of_Z z = Num (Z.sgn z * m) ∧ two53 <= m.
Proof.
  intros Hz. unfold JsNum.of_Z. change (2 ^ 53) with two53.
  destruct (Z.ltb_spec (Z.abs z) two53) as [|_]; [lia|].
  set (a := Z.abs z) in *. set (e := Z.log2 a - 52).
  set (q := Z.shiftr a e).
  set (q' := if (_ || _ : bool) then q + 1 else q).
  destruct (2 ^ 1024 <=? Z.shiftl q' e); [by left|right].
  exists (Z.shiftl q' e). split; [done|].
  assert (53 <= Z.log2 a) as Hlog.
  { change 53 with (Z.log2 two53). by apply Z.log2_le_mono. }
  assert (1 <= e) as He by (subst e; lia).
  assert (2 ^ Z.log2 a <= a) as Hlow by (apply Z.log2_spec; lia).
  assert (2 ^ Z.log2 a = 2 ^ 52 * 2 ^ e) as Hsplit.
  { rewrite <- Z.pow_add_r by lia. f_equal. subst e. lia. }
  assert (2 ^ 1 <= 2 ^ e) as Hpow by (apply Z.pow_le_mono_r; lia).
  assert (2 ^ 52 <= q) as Hq.
  { subst q. rewrite Z.shiftr_div_pow2 by lia.
    apply Z.div_le_lower_bound; lia. }
  assert (q <= q') as Hq' by (subst q'; destruct (_ || _); lia).
  rewrite Z.shiftl_mul_pow2 by lia.
  change (2 ^ 1) with 2 in Hpow. change (2 ^ 52) with 4503599627370496 in Hq.
  nia.
Qed.

(** A finite Number beyond 2^53 keeps 53 bits of the integer and is a
    nearest one: it is [q * 2^e] with q of 53 bits, at most half of [2^e]
    from the integer, and q is even when it is just half of [2^e] away. *)
Lemma of_Z_nearest z m :
  two53 <= Z.abs z → JsNum.of_Z z = Num m →
  ∃ q e, 1 <= e ∧ 2 ^ 52 <= q <= 2 ^ 53 ∧ Z.abs m = q * 2 ^ e
         ∧ 2 * Z.abs (Z.abs m - Z.abs z) <= 2 ^ e
         ∧ (2 * Z.abs (Z.abs m - Z.abs z) = 2 ^ e → Z.even q = true)
         ∧ (0 <= m ↔ 0 <= z).
Proof.
  intros Hz. unfold JsNum.of_Z. change (2 ^ 53) with two53.
  destruct (Z.ltb_spec (Z.abs z) two53) as [|_]; [lia|].
  set (a := Z.abs z) in *. set (e := Z.log2 a - 52).
  set (q := Z.shiftr a e). set (r := a - Z.shiftl q e).
  set (half := Z.shiftl 1 (e - 1)).
  set (q' := if (_ || _ : bool) then q + 1 else q).
  destruct (2 ^ 1024 <=? Z.shiftl q' e); [done|]. intros [= <-].
  assert (53 <= Z.log2 a) as Hlog.
  { change 53 with (Z.log2 two53). by apply Z.log2_le_mono. }
  assert (1 <= e) as He by (subst e; lia).
  assert (2 ^ Z.log2 a <= a < 2 ^ Z.succ (Z.log2 a)) as Hbounds
    by (apply Z.log2_spec; lia).
  assert (2 ^ Z.log2 a = 4503599627370496 * 2 ^ e) as Hlow.
  { change 4503599627370496 with (2 ^ 52).
    rewrite <- Z.pow_add_r by lia. f_equal. subst e. lia. }
  assert (2 ^ Z.succ (Z.log2 a) = two53 * 2 ^ e) as Hhigh.
  { change two53 with (2 ^ 53).
    rewrite <- Z.pow_add_r by lia. f_equal. subst e. lia. }
  assert (2 ^ e = 2 * 2 ^ (e - 1)) as Hdouble.
  { rewrite <- Z.pow_succ_r by lia. f_equal. lia. }
  assert (0 < 2 ^ (e - 1)) as Hpos by (apply Z.pow_pos_nonneg; lia).
  assert (half = 2 ^ (e - 1)) as Hhalf.
  { subst half. rewrite Z.shiftl_mul_pow2 by lia. lia. }
  assert (a = 2 ^ e * q + a mod 2 ^ e ∧ 0 <= a mod 2 ^ e < 2 ^ e)
    as [Hdiv Hmod].
  { subst q. rewrite Z.shiftr_div_pow2 by lia. split.
    - apply Z.div_mod. lia.
    - apply Z.mod_pos_bound. lia. }
  assert (r = a mod 2 ^ e) as Hr.
  { subst r. rewrite Z.shiftl_mul_pow2 by lia. lia. }
  rewrite Z.shiftl_mul_pow2 by lia.
  change (2 ^ 52) with 4503599627370496. change (2 ^ 53) with two53.
  clearbody q r half e. rewrite Hlow, Hhigh in Hbounds. clear Hlow Hhigh Hlog.
  remember (2 ^ (e - 1)) as P eqn:HP. remember (2 ^ e) as E eqn:HE.
  subst half. remember (a mod E) as R eqn:HR. subst r. clear HP HR.
  assert (4503599627370496 <= q < two53) as Hq by nia.
  assert ((q' = q ∧ R <= P ∧ (R = P → Z.even q = true))
          ∨ (q' = q + 1 ∧ P <= R ∧ (R = P → Z.even (q + 1) = true)))
    as Hround.
  { subst q'. destruct (Z.ltb_spec P R) as [Hgt|Hle]; cbn [orb].
    { right. split; [done|]. split; [lia|]. intros ->. lia. }
    destruct (Z.eqb_spec R P) as [->|Hne]; cbn [andb].
    - destruct (Z.odd q) eqn:Hodd.
      + right. split; [done|]. split; [lia|]. intros _.
        by rewrite Z.even_add, <- Z.negb_odd, Hodd.
      + left. split; [done|]. split; [lia|]. intros _.
        by rewrite <- Z.negb_odd, Hodd.
    - left. split; [done|]. split; [lia|]. done. }
  clearbody q'. exists q', e. rewrite <- HE. clear HE.
  assert (Z.abs (Z.sgn z * (q' * E)) = q' * E) as Habs.
  { assert (0 <= q' * E) by nia. subst a. lia. }
  rewrite Habs.
  split; [done|]. split; [lia|]. split; [done|].
  split; [|split].
  - destruct Hround as [(-> & ? & _)|(-> & ? & _)]; nia.
  - destruct Hround as [(-> & ? & Heven)|(-> & ? & Heven)];
      intros Htie; apply Heven; nia.
  - assert (0 < q' * E) by nia. subst a. lia.
Qed.

Lemma min_of_Z n :
  0 <= n → JsNum.min (JsNum.of_Z n) 100 = Num (Z.min n 100).
Proof.
  intros Hn. destruct (Z.le_gt_cases (Z.abs n) two53) as [Hsmall|Hlarge].
  { by rewrite of_Z_small. }
  destruct (of_Z_large n) as [-> | (m & -> & Hm)]; [lia| |].
  - assert ((n <? 0) = false) as -> by (apply Z.ltb_ge; lia).
    simpl. f_equal. lia.
  - simpl. f_equal. lia.
Qed.

Lemma min_of_Z_opp n :
  0 <= n → JsNum.min (JsNum.of_Z (- n)) 100 = JsNum.of_Z (- n).
Proof.
  intros Hn. destruct (Z.le_gt_cases (Z.abs (- n)) two53) as [Hsmall|Hlarge].
  { rewrite of_Z_small by done. simpl. f_equal. lia. }
  destruct (of_Z_large (- n)) as [-> | (m & -> & Hm)]; [lia| |].
  - assert ((- n <? 0) = true) as -> by (apply Z.ltb_lt; lia). done.
  - simpl. f_equal. lia.
Qed.

Lemma or_default_given (x d : jstring) :
  x ≠ [] → or_default (Some x) d = x.
Proof. by destruct x. Qed.

Lemma or_default_missing (x : option jstring) (d : jstring) :
  nonempty x = None → or_default x d = d.
Proof. by destruct x as [[|? ?]|]. Qed.


(** C8.  The parameters of a collection GET, for a request that
    authenticates, has the permission and passes the rate limit.
    - The answer is what the table answers to the query built from the
      parameters: 200 with the rows and, in [meta], the effective limit and
      offset, or 500 when the table reports an error.
    - The range of the query runs from the offset to offset + limit - 1,
      which is that very integer when offset + limit is below 2^53 in
      magnitude.
    - A non-empty [status] goes into the query as it is, whatever it is.
    - The limit is [parseInt] of the parameter, 50 when there is none, cut
      down to 100 and never raised: digits that write [n] give
      [min n 100], and a minus sign before them gives the Number for
      [- n], which is [- n] up to 2^53.
    - The offset is [parseInt] of the parameter, 0 when there is none, as it
      is: digits that write [n] give the Number for [n], and a minus sign
      before them the Number for [- n]; these are [n] and [- n] up to
      2^53. *)
Theorem collection_parameters req (st : State) keyData rl :
  method req = "GET" →
  authenticated req keyData → permitted keyData req → admitted st keyData rl →
  is_idea_id (last_segment (pathname req)) = false →
  let params := searchParams req in
  let limit := effective_limit params in
  let offset := effective_offset params in
  let query := collection_query keyData params in
  serve req st
  = (match db_select_many (ideas st) query with
     | Some rows =>
         {| status := 200;
            body := ListBody rows limit offset (length rows) |}
     | None => {| status := 500; body := ErrorBody "Failed to fetch ideas" |}
     end, counted st rl)
  ∧ q_range_from query = offset
  ∧ q_range_to query = JsNum.sub (JsNum.add offset limit) 1
  ∧ (∀ o l, offset = Num o → limit = Num l → Z.abs (o + l) < 2 ^ 53 →
            q_range_to query = Num (o + l - 1))
  ∧ q_status query = nonempty (params_get (lit "status") params)
  ∧ (nonempty (params_get (lit "limit") params) = None → limit = Num 50)
  ∧ (∀ n, limit = Num n → n <= 100)
  ∧ limit ≠ Infinity false
  ∧ (∀ digits,
       digits ≠ [] → Forall Rules.decimal_digit digits →
       (params_get (lit "limit") params = Some digits →
        limit = Num (Z.min (Rules.decimal_value digits) 100))
       ∧ (params_get (lit "limit") params = Some (45%N :: digits) →
          limit = JsNum.of_Z (- Rules.decimal_value digits)
          ∧ (Rules.decimal_value digits <= 2 ^ 53 →
             limit = Num (- Rules.decimal_value digits))))
  ∧ (nonempty (params_get (lit "offset") params) = None → offset = Num 0)
  ∧ (∀ digits,
       digits ≠ [] → Forall Rules.decimal_digit digits →
       (params_get (lit "offset") params = Some digits →
        offset = JsNum.of_Z (Rules.decimal_value digits)
        ∧ (Rules.decimal_value digits <= 2 ^ 53 →
           offset = Num (Rules.decimal_value digits)))
       ∧ (params_get (lit "offset") params = Some (45%N :: digits) →
          offset = JsNum.of_Z (- Rules.decimal_value digits)
          ∧ (Rules.decimal_value digits <= 2 ^ 53 →
             offset = Num (- Rules.decimal_value digits)))).
Proof.
  intros Hget Hauth Hperm Hrl Hid params limit offset query.
  assert (method req ≠ "OPTIONS") as Hoptions by by rewrite Hget.
  change (2 ^ 53) with two53.
  split.
  { rewrite (serve_admitted _ _ _ _ Hoptions Hauth Hperm Hrl).
    rewrite (dispatch_get _ _ Hget), (handle_get_collection _ _ _ _ Hid).
    done. }
  do 2 (split; [done|]).
  split.
  { intros o l Ho Hl Hsum. subst query. cbn [collection_query q_range_to].
    fold params. fold limit offset. rewrite Ho, Hl.
    unfold JsNum.sub. cbn [JsNum.add].
    rewrite (of_Z_small (o + l)) by lia. cbn [JsNum.add].
    by rewrite of_Z_small by lia. }
  split; [done|].
  split.
  { intros Hnone. subst limit. unfold effective_limit.
    by rewrite (or_default_missing _ _ Hnone). }
  split.
  { subst limit. unfold effective_limit, JsNum.min. intros n.
    destruct (parseInt _) as [|[|]|m]; try done; intros [= <-]; lia. }
  split.
  { subst limit. unfold effective_limit, JsNum.min.
    by destruct (parseInt _) as [|[|]|m]. }
  split.
  { intros digits Hne Hall.
    destruct (parseInt_decimal _ Hne Hall) as [Hplus Hminus].
    pose proof (decimal_value_nonneg _ Hall) as Hpositive.
    subst limit. unfold effective_limit. split; intros ->.
    - rewrite (or_default_given _ _ Hne), Hplus. by apply min_of_Z.
    - rewrite or_default_given, Hminus by done.
      rewrite min_of_Z_opp by done. split; [done|].
      intros Hsmall. apply of_Z_small. lia. }
  split.
  { intros Hnone. subst offset. unfold effective_offset.
    by rewrite (or_default_missing _ _ Hnone). }
  intros digits Hne Hall.
  destruct (parseInt_decimal _ Hne Hall) as [Hplus Hminus].
  pose proof (decimal_value_nonneg _ Hall) as Hpositive.
  subst offset. unfold effective_offset. split; intros ->.
  - rewrite (or_default_given _ _ Hne), Hplus. split; [done|].
    intros Hsmall. apply of_Z_small. lia.
  - rewrite or_default_given, Hminus by done. split; [done|].
    intros Hsmall. apply of_Z_small. lia.
Qed.


(* ------------------------------------------------------------------ *)
(** *** Who gets to the switch, and what it costs *)

Lemma authenticate_ok apiKey keyData :
  authenticateApiKey apiKey = Ret keyData →
  startsWith apiKey (lit "iah_") = true
  ∧ is_valid keyData = true
  ∧ ∃ others, validate_api_key apiKey = RpcData (Some (keyData :: others)).
Proof.
  unfold Gateway.authenticateApiKey.
  destruct (eqb apiKey []); [done|].
  destruct (startsWith apiKey (lit "iah_")); [|done]. simpl.
  destruct (validate_api_key apiKey) as [|[[|first others]|]]; try done.
  destruct (is_valid first) eqn:Hvalid; [|done]. simpl.
  intros [= <-]. split; [done|]. split; [done|]. by exists others.
Qed.

Lemma dispatch_limiter keyData req (st : State) :
  limiter (dispatch keyData req st).2 = limiter st.
Proof.
  rewrite dispatch_method. cbv zeta.
  set (ideaId := last_segment (pathname req)).
  destruct (String.eqb (method req) "GET").
  { destruct (is_idea_id ideaId) eqn:Hid.
    - by rewrite handle_get_single.
    - by rewrite handle_get_collection. }
  destruct (String.eqb (method req) "POST").
  { by destruct (handle_post_cases keyData req st)
      as [[-> _]|(stored & -> & _)]. }
  destruct (String.eqb (method req) "PUT").
  { by destruct (handle_put_cases keyData req ideaId st)
      as [[-> _]|(? & ? & ? & _ & _ & _ & _ & ->)]. }
  destruct (String.eqb (method req) "DELETE"); [|done].
  destruct (is_idea_id ideaId) eqn:Hid; [|by rewrite handle_delete_no_id].
  by destruct (handle_delete_cases keyData ideaId st Hid)
    as [-> | (? & _ & ->)].
Qed.

(** X5.  A key that has neither the permission that the method asks for
    ([read] for GET, [write] for any other method) nor [admin] is answered
    403 with the name of the missing permission.  The answer comes before
    the rate limit: nothing is counted and the table is not touched. *)
Theorem forbidden_before_rate_limit req (st : State) keyData :
  method req ≠ "OPTIONS" →
  authenticated req keyData →
  includes (permissions keyData) (requiredPermission req) = false →
  includes (permissions keyData) "admin" = false →
  serve req st
  = ({| status := 403;
        body := ErrorBody ("Insufficient permissions. Required: "
                             +:+ requiredPermission req) |}, st)
  ∧ (requiredPermission req = "read" ∨ requiredPermission req = "write")
  ∧ (requiredPermission req = "read" ↔ toLowerCase (method req) = "get").
Proof.
  intros Hoptions Hauth Hneeded Hadmin.
  destruct (authenticated_key _ _ Hauth) as (c & apiKey & Hkey & Hk).
  split.
  - unfold Gateway.serve, Gateway.guarded, bind, lift.
    apply String.eqb_neq in Hoptions.
    by rewrite Hoptions, Hkey, Hk, Hneeded, Hadmin.
  - unfold requiredPermission.
    destruct (String.eqb (toLowerCase (method req)) "get") eqn:Hget.
    + apply String.eqb_eq in Hget. by split; [left|].
    + apply String.eqb_neq in Hget. split; [by right|]. by split.
Qed.

(** X6.  Every request that authenticates and has the permission is
    counted by the rate limiter once, whatever becomes of it afterwards (a
    validation error, a 404, a thrown error); a preflight and a request
    that does not authenticate or lacks the permission are not counted. *)
Theorem limiter_accounting req (st : State) :
  (∀ keyData,
      method req ≠ "OPTIONS" → authenticated req keyData →
      permitted keyData req →
      limiter (serve req st).2
      = (check_rate_limit (limiter st) (api_key_id keyData) "ai-ideas"
                          (rate_limit_per_hour keyData)).2)
  ∧ (method req = "OPTIONS"
     ∨ (∀ keyData, authenticated req keyData → ¬ permitted keyData req) →
     limiter (serve req st).2 = limiter st).
Proof.
  split.
  - intros keyData Hoptions Hauth Hperm.
    destruct (check_rate_limit (limiter st) (api_key_id keyData) "ai-ideas"
                (rate_limit_per_hour keyData)) as [answer rl] eqn:Hrl.
    assert (answer = RpcData (Some true) ∨ answer ≠ RpcData (Some true))
      as [->|Hanswer] by (destruct answer as [|[[|]|]]; auto).
    { rewrite (serve_admitted _ _ _ _ Hoptions Hauth Hperm Hrl), catch_snd.
      by rewrite dispatch_limiter. }
    destruct (authenticated_key _ _ Hauth) as (c & apiKey & Hkey & Hk).
    unfold Gateway.serve, Gateway.guarded, bind, lift.
    apply String.eqb_neq in Hoptions. rewrite Hoptions, Hkey, Hk.
    unfold permitted in Hperm. apply orb_true_iff in Hperm.
    replace (negb _ && negb _) with false
      by (symmetry; apply andb_false_iff; rewrite !negb_false_iff; tauto).
    unfold checkRateLimit. rewrite Hrl.
    by destruct answer as [|[[|]|]].
  - intros Hstopped. unfold Gateway.serve.
    destruct (String.eqb (method req) "OPTIONS") eqn:Hoptions; [done|].
    destruct Hstopped as [Hm|Hstopped];
      [by apply String.eqb_neq in Hoptions|].
    unfold Gateway.guarded, bind, lift.
    destruct (x_api_key req) as [[|c apiKey]|] eqn:Hkey; [done| |done].
    destruct (authenticateApiKey (c :: apiKey)) as [keyData|] eqn:Hauth;
      [|done].
    assert (¬ permitted keyData req) as Hperm
      by (apply Hstopped; by exists (c :: apiKey)).
    unfold permitted in Hperm. apply not_true_is_false in Hperm.
    apply orb_false_iff in Hperm as [-> ->]. done.
Qed.

(** X7.  The table changes only for a POST, a PUT or a DELETE that comes
    with a key that starts with [iah_], that the credential store resolves
    to a valid record, that has [write] or [admin] among its permissions,
    and that the rate limiter lets through. *)
Theorem writes_need_authority req (st : State) :
  ideas (serve req st).2 ≠ ideas st →
  ∃ apiKey keyData rl,
    x_api_key req = Some apiKey
    ∧ startsWith apiKey (lit "iah_") = true
    ∧ authenticateApiKey apiKey = Ret keyData
    ∧ is_valid keyData = true
    ∧ (includes (permissions keyData) "write" = true
       ∨ includes (permissions keyData) "admin" = true)
    ∧ admitted st keyData rl
    ∧ (method req = "POST" ∨ method req = "PUT" ∨ method req = "DELETE").
Proof.
  intros Hchanged.
  destruct (serve_cases req st)
    as [Hsame|(keyData & rl & Hauth & Hperm & Hrl)]; [done|].
  destruct (String.eqb (method req) "OPTIONS") eqn:Hoptions.
  { exfalso. apply Hchanged. unfold Gateway.serve. by rewrite Hoptions. }
  apply String.eqb_neq in Hoptions.
  rewrite (serve_admitted _ _ _ _ Hoptions Hauth Hperm Hrl), catch_snd
    in Hchanged.
  assert (method req = "POST" ∨ method req = "PUT" ∨ method req = "DELETE")
    as Hmethod.
  { rewrite dispatch_method in Hchanged. cbv zeta in Hchanged.
    destruct (String.eqb (method req) "GET") eqn:Hget.
    { exfalso. apply Hchanged.
      destruct (is_idea_id (last_segment (pathname req))) eqn:Hid.
      - by rewrite handle_get_single.
      - by rewrite handle_get_collection. }
    destruct (String.eqb (method req) "POST") eqn:Hpost;
      [left; by apply String.eqb_eq|].
    destruct (String.eqb (method req) "PUT") eqn:Hput;
      [right; left; by apply String.eqb_eq|].
    destruct (String.eqb (method req) "DELETE") eqn:Hdelete;
      [right; right; by apply String.eqb_eq|].
    by exfalso. }
  destruct Hauth as (apiKey & Hkey & Hk).
  destruct (authenticate_ok _ _ Hk) as (Hprefix & Hvalid & _).
  exists apiKey, keyData, rl. repeat (split; [done|]). split; [|done].
  unfold permitted, requiredPermission in Hperm.
  apply orb_true_iff in Hperm.
  by destruct Hmethod as [Hm|[Hm|Hm]]; rewrite Hm in Hperm.
Qed.

(* ------------------------------------------------------------------ *)
(** *** The answers of the switch *)

Local Ltac one_of_the_codes :=
  cbn [catch fst status];
  repeat first [ apply list_elem_of_here | apply list_elem_of_further ].

Lemma dispatch_status keyData req (st : State) :
  status (catch (dispatch keyData req st)).1 ∈ [200; 201; 400; 404; 405; 500].
Proof.
  rewrite dispatch_method. cbv zeta.
  set (ideaId := last_segment (pathname req)).
  destruct (String.eqb (method req) "GET").
  { destruct (is_idea_id ideaId) eqn:Hid.
    - rewrite handle_get_single by done.
      destruct (List.filter _ _) as [|? [|? ?]]; one_of_the_codes.
    - rewrite handle_get_collection by done.
      destruct (db_select_many _ _); one_of_the_codes. }
  destruct (String.eqb (method req) "POST").
  { unfold Gateway.handle_post, bind, lift, respond, ret.
    destruct (json_body req) as [createData|]; [|one_of_the_codes].
    destruct (validateIdeaData _ _) as [[|]|]; [|one_of_the_codes..].
    destruct (sanitize_prop (prop createData "title")); [|one_of_the_codes].
    destruct (truthy_prop (prop createData "description")).
    - destruct (sanitize_prop (prop createData "description"));
        [|one_of_the_codes].
      unfold Gateway.insert_single.
      destruct (db_accepts _ _); one_of_the_codes.
    - unfold Gateway.insert_single.
      destruct (db_accepts _ _); one_of_the_codes. }
  destruct (String.eqb (method req) "PUT").
  { unfold Gateway.handle_put, bind, lift, respond, ret.
    destruct (negb (is_idea_id ideaId)); [one_of_the_codes|].
    destruct (json_body req) as [updateData|]; [|one_of_the_codes].
    destruct (validateIdeaData coerce_gt_500 updateData) as [[|]|];
      [|one_of_the_codes..].
    destruct (sanitizedUpdateData updateData); [|one_of_the_codes].
    unfold Gateway.update_single.
    destruct (List.filter _ _) as [|? [|? ?]];
      [one_of_the_codes| |one_of_the_codes].
    destruct (db_accepts _ _); one_of_the_codes. }
  destruct (String.eqb (method req) "DELETE"); [|one_of_the_codes].
  destruct (is_idea_id ideaId) eqn:Hid;
    [|rewrite handle_delete_no_id by done; one_of_the_codes].
  destruct (handle_delete_cases keyData ideaId st Hid)
    as [-> | (? & _ & ->)]; one_of_the_codes.
Qed.

(** X8.  The statuses of the handler: whatever the request and the state,
    the answer has one of the statuses 200, 201, 400, 401, 403, 404, 405 and
    500. *)
Theorem status_codes req (st : State) :
  status (serve req st).1 ∈ [200; 201; 400; 401; 403; 404; 405; 500].
Proof.
  unfold Gateway.serve.
  destruct (String.eqb (method req) "OPTIONS"); [one_of_the_codes|].
  unfold Gateway.guarded, bind, lift.
  destruct (x_api_key req) as [[|c apiKey]|];
    [one_of_the_codes| |one_of_the_codes].
  destruct (authenticateApiKey (c :: apiKey)) as [keyData|];
    [|one_of_the_codes].
  destruct (negb _ && negb _); [one_of_the_codes|].
  unfold checkRateLimit.
  destruct (check_rate_limit _ _ _ _) as [answer rl].
  destruct answer as [|[[|]|]]; [one_of_the_codes| |one_of_the_codes..].
  pose proof (dispatch_status keyData req {| ideas := ideas st; limiter := rl |})
    as Hstatus.
  repeat (apply elem_of_cons in Hstatus as [->|Hstatus];
          [one_of_the_codes|]).
  by apply elem_of_nil in Hstatus.
Qed.

(** X9.  A method other than OPTIONS, GET, POST, PUT and DELETE, in these
    very capitals, is answered 405 once the request has authenticated, shown
    its permission and been counted; the table is not touched. *)
Theorem method_not_allowed req (st : State) keyData rl :
  method req ≠ "OPTIONS" → method req ≠ "GET" → method req ≠ "POST" →
  method req ≠ "PUT" → method req ≠ "DELETE" →
  authenticated req keyData → permitted keyData req → admitted st keyData rl →
  serve req st
  = ({| status := 405; body := ErrorBody "Method not allowed" |},
     counted st rl).
Proof.
  intros Hoptions Hget Hpost Hput Hdelete Hauth Hperm Hrl.
  rewrite (serve_admitted _ _ _ _ Hoptions Hauth Hperm Hrl), dispatch_method.
  apply String.eqb_neq in Hget, Hpost, Hput, Hdelete.
  by rewrite Hget, Hpost, Hput, Hdelete.
Qed.

(** X10.  A PUT or a DELETE on the collection path (the last segment of the
    path is empty or is [ai-ideas]) is answered 400 for want of an id; the
    body is not read and the table is not touched. *)
Theorem id_required req (st : State) keyData rl :
  authenticated req keyData → permitted keyData req → admitted st keyData rl →
  is_idea_id (last_segment (pathname req)) = false →
  (method req = "PUT" →
   serve req st
   = ({| status := 400; body := ErrorBody "Idea ID required for updates" |},
      counted st rl))
  ∧ (method req = "DELETE" →
     serve req st
     = ({| status := 400; body := ErrorBody "Idea ID required for deletion" |},
        counted st rl)).
Proof.
  intros Hauth Hperm Hrl Hid. split; intros Hmethod.
  - assert (method req ≠ "OPTIONS") as Hoptions by by rewrite Hmethod.
    rewrite (serve_admitted _ _ _ _ Hoptions Hauth Hperm Hrl).
    rewrite (dispatch_put _ _ Hmethod). unfold Gateway.handle_put.
    by rewrite Hid.
  - assert (method req ≠ "OPTIONS") as Hoptions by by rewrite Hmethod.
    rewrite (serve_admitted _ _ _ _ Hoptions Hauth Hperm Hrl).
    rewrite (dispatch_delete _ _ Hmethod).
    by rewrite handle_delete_no_id.
Qed.

(** The body of a POST, or of a PUT that has an id in its path. *)
Local Abbreviation takes_body req :=
  (method req = "POST"
   ∨ method req = "PUT" ∧ is_idea_id (last_segment (pathname req)) = true).

Lemma serve_body req (st : State) keyData rl :
  takes_body req →
  authenticated req keyData → permitted keyData req → admitted st keyData rl →
  (∀ message,
      json_body req = Throw message →
      serve req st
      = ({| status := 500; body := ErrorBody (error_message message) |},
         counted st rl))
  ∧ (∀ data message,
        json_body req = Ret data →
        validateIdeaData coerce_gt_500 data = Throw message →
        serve req st
        = ({| status := 500; body := ErrorBody (error_message message) |},
           counted st rl))
  ∧ (∀ data e errors,
        json_body req = Ret data →
        validateIdeaData coerce_gt_500 data = Ret (e :: errors) →
        serve req st
        = ({| status := 400;
              body := ValidationBody "Validation failed" (e :: errors) |},
           counted st rl)).
Proof.
  intros Hbody Hauth Hperm Hrl.
  assert (method req ≠ "OPTIONS") as Hoptions
    by (by destruct Hbody as [Hm|[Hm _]]; rewrite Hm).
  rewrite (serve_admitted _ _ _ _ Hoptions Hauth Hperm Hrl).
  destruct Hbody as [Hm|[Hm Hid]].
  - rewrite (dispatch_post _ _ Hm).
    unfold Gateway.handle_post, bind, lift.
    repeat split; intros; by repeat match goal with H : _ = _ |- _ =>
                                              rewrite H end.
  - rewrite (dispatch_put _ _ Hm).
    unfold Gateway.handle_put, bind, lift. rewrite Hid.
    repeat split; intros; by repeat match goal with H : _ = _ |- _ =>
                                              rewrite H end.
Qed.

(** X11.  A POST, or a PUT with an id, whose body the validator finds
    fault with is answered 400 with the errors of the validator, all of
    them, and the table is not touched. *)
Theorem invalid_body_rejected req (st : State) keyData rl data errors :
  takes_body req →
  authenticated req keyData → permitted keyData req → admitted st keyData rl →
  json_body req = Ret data →
  validateIdeaData coerce_gt_500 data = Ret errors → errors ≠ [] →
  serve req st
  = ({| status := 400; body := ValidationBody "Validation failed" errors |},
     counted st rl).
Proof.
  intros Hbody Hauth Hperm Hrl Hdata Hvalid Herrors.
  destruct errors as [|e errors]; [done|].
  destruct (serve_body req st keyData rl Hbody Hauth Hperm Hrl)
    as (_ & _ & Hinvalid).
  by apply (Hinvalid data).
Qed.

(** X12.  The body of a POST, or of a PUT with an id, that is not an
    object.  A body that does not parse is answered 500 with the message of
    the parser; the body [null] is answered 500 with the message of the
    failed read of its title; a string, a number, a boolean or an array is
    answered 400 with the one error that the title is required.  Nothing is
    written in any of these cases. *)
Theorem body_not_an_object req (st : State) keyData rl :
  takes_body req →
  authenticated req keyData → permitted keyData req → admitted st keyData rl →
  (∀ message,
      json_body req = Throw message →
      serve req st
      = ({| status := 500; body := ErrorBody (error_message message) |},
         counted st rl))
  ∧ (json_body req = Ret JNull →
     serve req st
     = ({| status := 500; body := ErrorBody msg_null_title |}, counted st rl))
  ∧ (∀ data,
        json_body req = Ret data → data ≠ JNull →
        (∀ fields, data ≠ JObj fields) →
        serve req st
        = ({| status := 400;
              body := ValidationBody "Validation failed" [msg_title_required] |},
           counted st rl)).
Proof.
  intros Hbody Hauth Hperm Hrl.
  destruct (serve_body req st keyData rl Hbody Hauth Hperm Hrl)
    as (Hthrow & Hnull & Hinvalid).
  split; [done|]. split.
  - intros Hdata. by rewrite (Hnull JNull msg_null_title Hdata).
  - intros data Hdata Hnotnull Hshape.
    apply (Hinvalid data msg_title_required []); [done|].
    destruct data; try done. by destruct (Hshape fields).
Qed.

(* ------------------------------------------------------------------ *)
(** *** What a POST stores *)

Lemma valid_title data :
  validateIdeaData coerce_gt_500 data = Ret [] →
  ∃ fields title,
    data = JObj fields ∧ fields !! "title" = Some (JStr title)
    ∧ len title <= 500.
Proof.
  intros Hvalid.
  destruct (valid_is_object _ _ Hvalid) as [fields ->].
  assert (JObj fields ≠ JNull) as Hdata by done.
  destruct (proj1 (errors_nil _ _ _ Hdata Hvalid) eq_refl)
    as (Hmissing & Hlong & _).
  destruct (proj2 (title_rule_spec coerce_gt_500 (JObj fields))
              (conj Hmissing Hlong)) as (title & Htitle & _ & Hlen).
  by exists fields, title.
Qed.

Lemma valid_description data :
  validateIdeaData coerce_gt_500 data = Ret [] →
  truthy_prop (prop data "description") = true →
  ∃ d, prop data "description" = Some (JStr d).
Proof.
  intros Hvalid Hgiven.
  assert (data ≠ JNull) as Hdata by (by intros ->).
  destruct (proj1 (errors_nil _ _ _ Hdata Hvalid) eq_refl)
    as (_ & _ & Hbad & _).
  unfold description_bad in Hbad. rewrite Hgiven in Hbad.
  destruct (prop data "description") as [[| | |d| |]|]; try done.
  by exists d.
Qed.

Lemma title_sanitized data :
  validateIdeaData coerce_gt_500 data = Ret [] →
  ∃ title t,
    prop data "title" = Some (JStr title) ∧ len title <= 500
    ∧ sanitize_prop (prop data "title") = Ret t
    ∧ sanitizeMarkdown title = Ret t
    ∧ len t <= len title ∧ trim t = t.
Proof.
  intros Hvalid.
  destruct (valid_title _ Hvalid) as (fields & title & -> & Htitle & Hlen).
  destruct (sanitize_short title) as (t & Ht & Hshort & Htrimmed).
  { unfold max_content_length. lia. }
  exists title, t. simpl. rewrite Htitle. by simpl.
Qed.

(** X13.  The title of a body that passes the validator is always
    sanitised, never refused for its size: the result has at most 500 code
    units and is trimmed. *)
Theorem valid_title_sanitizes data :
  validateIdeaData coerce_gt_500 data = Ret [] →
  ∃ title t,
    prop data "title" = Some (JStr title)
    ∧ sanitize_prop (prop data "title") = Ret t
    ∧ sanitizeMarkdown title = Ret t
    ∧ len t <= 500 ∧ trim t = t.
Proof.
  intros Hvalid.
  destruct (title_sanitized _ Hvalid)
    as (title & t & Htitle & Hlen & Hprop & Ht & Hshort & Htrimmed).
  exists title, t. repeat (split; [done|]). split; [lia|done].
Qed.

Lemma handle_post_created keyData req (st : State) stored :
  (catch (handle_post keyData req st)).1
  = {| status := 201; body := DataBody stored |} →
  ∃ createData title description,
    json_body req = Ret createData
    ∧ validateIdeaData coerce_gt_500 createData = Ret []
    ∧ sanitize_prop (prop createData "title") = Ret title
    ∧ (truthy_prop (prop createData "description") = false
       ∧ description = JNull
       ∨ ∃ d, truthy_prop (prop createData "description") = true
              ∧ sanitize_prop (prop createData "description") = Ret d
              ∧ description = JStr d)
    ∧ stored
      = <["user_id" := JStr (user_id keyData)]>
          (<["description" := description]>
             (<["title" := JStr title]> (spread createData)))
        ∪ db_defaults (ideas st)
    ∧ (catch (handle_post keyData req st)).2
      = {| ideas := ideas st ++ [stored]; limiter := limiter st |}.
Proof.
  unfold Gateway.handle_post, bind, lift, respond, ret.
  destruct (json_body req) as [createData|] eqn:Hbody; [|by intros [=]].
  destruct (validateIdeaData _ _) as [[|]|] eqn:Hvalid; [|by intros [=]..].
  destruct (sanitize_prop (prop createData "title")) as [title|] eqn:Htitle;
    [|by intros [=]].
  destruct (truthy_prop (prop createData "description")) eqn:Hgiven.
  - destruct (sanitize_prop (prop createData "description")) as [d|] eqn:Hd;
      [|by intros [=]].
    unfold Gateway.insert_single.
    destruct (db_accepts _ _); [|by intros [=]].
    cbn [catch fst snd]. intros [= <-].
    exists createData, title, (JStr d). repeat (split; [done|]).
    split; [|by split]. right. by exists d.
  - unfold Gateway.insert_single.
    destruct (db_accepts _ _); [|by intros [=]].
    cbn [catch fst snd]. intros [= <-].
    exists createData, title, JNull. repeat (split; [done|]).
    split; [|by split]. by left.
Qed.

(** X14.  What a POST that is answered 201 has stored: the body was an
    object with a string title; the stored title is that title sanitised;
    the stored description is the sanitised description when the body gives
    a truthy one and [null] otherwise; every other field of the body except
    [user_id] is stored as the body has it, and a field that the body does
    not have takes the default of the table. *)
Theorem post_stores_sanitized req (st : State) keyData rl stored :
  method req = "POST" →
  authenticated req keyData → permitted keyData req → admitted st keyData rl →
  (serve req st).1 = {| status := 201; body := DataBody stored |} →
  ∃ fields title t,
    json_body req = Ret (JObj fields)
    ∧ fields !! "title" = Some (JStr title)
    ∧ sanitizeMarkdown title = Ret t
    ∧ stored !! "title" = Some (JStr t)
    ∧ (truthy_prop (fields !! "description") = false
       ∧ stored !! "description" = Some JNull
       ∨ ∃ d d', fields !! "description" = Some (JStr d)
                 ∧ sanitizeMarkdown d = Ret d'
                 ∧ stored !! "description" = Some (JStr d'))
    ∧ ∀ k, k ≠ "title" → k ≠ "description" → k ≠ "user_id" →
           stored !! k = match fields !! k with
                         | Some v => Some v
                         | None => db_defaults (ideas st) !! k
                         end.
Proof.
  intros Hpost Hauth Hperm Hrl Hcreated.
  assert (method req ≠ "OPTIONS") as Hoptions by by rewrite Hpost.
  rewrite (serve_admitted _ _ _ _ Hoptions Hauth Hperm Hrl) in Hcreated.
  rewrite (dispatch_post _ _ Hpost) in Hcreated.
  apply handle_post_created in Hcreated
    as (data & t & description & Hbody & Hvalid & Htitle & Hdescription
        & -> & _).
  destruct (title_sanitized _ Hvalid)
    as (title & t' & Hprop & _ & Ht' & Hsanitized & _).
  assert (t' = t) as -> by congruence.
  destruct (valid_is_object _ _ Hvalid) as [fields ->].
  cbn [prop spread] in *. exists fields, title, t. repeat (split; [done|]).
  split.
  { apply lookup_union_Some_l.
    do 2 (rewrite lookup_insert_ne by done). by rewrite lookup_insert_eq. }
  split.
  - destruct Hdescription as [[Hfalsy ->]|(d' & Hgiven & Hd' & ->)].
    + left. split; [done|]. apply lookup_union_Some_l.
      rewrite lookup_insert_ne by done. by rewrite lookup_insert_eq.
    + right.
      destruct (valid_description _ Hvalid Hgiven) as [d Hd].
      cbn [prop] in Hd. rewrite Hd in Hd'. simpl in Hd'.
      exists d, d'. split; [done|]. split; [done|].
      apply lookup_union_Some_l.
      rewrite lookup_insert_ne by done. by rewrite lookup_insert_eq.
  - intros k Htitlek Hdescriptionk Howner.
    destruct (fields !! k) as [v|] eqn:Hk.
    + apply lookup_union_Some_l. by do 3 (rewrite lookup_insert_ne by done).
    + apply lookup_union_r. by do 3 (rewrite lookup_insert_ne by done).
Qed.

(* ------------------------------------------------------------------ *)
(** *** What a PUT writes *)

Lemma valid_title_truthy data :
  validateIdeaData coerce_gt_500 data = Ret [] →
  truthy_prop (prop data "title") = true.
Proof.
  intros Hvalid.
  assert (data ≠ JNull) as Hdata by (by intros ->).
  destruct (proj1 (errors_nil _ _ _ Hdata Hvalid) eq_refl) as (Hmissing & _).
  unfold title_missing in Hmissing.
  by destruct (truthy_prop (prop data "title")).
Qed.

Lemma patch_lookup updateData patch k :
  sanitizedUpdateData updateData = Ret patch →
  k ≠ "title" → k ≠ "description" →
  patch !! k = spread updateData !! k.
Proof.
  unfold sanitizedUpdateData. intros Hpatch Htitle Hdescription.
  destruct (if truthy_prop (prop updateData "title") then _ else _);
    [|done].
  destruct (if truthy_prop (prop updateData "description") then _ else _);
    [|done].
  injection Hpatch as <-.
  rewrite lookup_omap. do 2 (rewrite lookup_insert_ne by done).
  rewrite lookup_fmap. by destruct (spread updateData !! k).
Qed.

Lemma patch_title updateData patch :
  sanitizedUpdateData updateData = Ret patch →
  truthy_prop (prop updateData "title") = true →
  ∃ t, sanitize_prop (prop updateData "title") = Ret t
       ∧ patch !! "title" = Some (JStr t).
Proof.
  unfold sanitizedUpdateData. intros Hpatch Htitle. rewrite Htitle in Hpatch.
  destruct (sanitize_prop (prop updateData "title")) as [t|]; [|done].
  destruct (if truthy_prop (prop updateData "description") then _ else _);
    [|done].
  injection Hpatch as <-. exists t. split; [done|].
  rewrite lookup_omap. rewrite lookup_insert_ne by done.
  by rewrite lookup_insert_eq.
Qed.

Lemma patch_description updateData patch :
  sanitizedUpdateData updateData = Ret patch →
  truthy_prop (prop updateData "description") = true →
  ∃ d, sanitize_prop (prop updateData "description") = Ret d
       ∧ patch !! "description" = Some (JStr d).
Proof.
  unfold sanitizedUpdateData. intros Hpatch Hdescription.
  rewrite Hdescription in Hpatch.
  destruct (if truthy_prop (prop updateData "title") then _ else _);
    [|done].
  destruct (sanitize_prop (prop updateData "description")) as [d|]; [|done].
  injection Hpatch as <-. exists d. split; [done|].
  by rewrite lookup_omap, lookup_insert_eq.
Qed.

Lemma handle_put_updated keyData req ideaId (st : State) updated :
  (catch (handle_put keyData req ideaId st)).1
  = {| status := 200; body := DataBody updated |} →
  ∃ updateData patch row,
    is_idea_id ideaId = true
    ∧ json_body req = Ret updateData
    ∧ validateIdeaData coerce_gt_500 updateData = Ret []
    ∧ sanitizedUpdateData updateData = Ret patch
    ∧ List.filter (scoped ideaId (user_id keyData)) (ideas st) = [row]
    ∧ updated = patch ∪ row
    ∧ (catch (handle_put keyData req ideaId st)).2
      = {| ideas := (λ r, if scoped ideaId (user_id keyData) r
                          then patch ∪ r else r) <$> ideas st;
           limiter := limiter st |}.
Proof.
  unfold Gateway.handle_put, bind, lift, respond, ret.
  destruct (is_idea_id ideaId) eqn:Hid; [|by intros [=]]. cbn [negb].
  destruct (json_body req) as [updateData|] eqn:Hbody; [|by intros [=]].
  destruct (validateIdeaData _ _) as [[|]|] eqn:Hvalid; [|by intros [=]..].
  destruct (sanitizedUpdateData updateData) as [patch|] eqn:Hpatch;
    [|by intros [=]].
  destruct (update_single_cases patch ideaId (user_id keyData) st)
    as [-> | (row & Hrow & ->)]; [by intros [=]|].
  cbn [catch fst snd]. intros [= <-].
  by exists updateData, patch, row.
Qed.

(** X15.  What a PUT that is answered 200 has written.  The body was an
    object with a string title, the id of the path and the owner of the key
    selected exactly one row, and the returned row is that row with:
    [title] set to the sanitised title of the body; [description] set to the
    sanitised description when the body gives a truthy one and left as it
    was otherwise; every other column except [id] and [user_id] taken from
    the body when the body has it and left as it was otherwise.  The
    returned row stands in the table where the selected row stood and the
    table has as many rows as before. *)
Theorem put_merges req (st : State) keyData rl updated :
  method req = "PUT" →
  authenticated req keyData → permitted keyData req → admitted st keyData rl →
  (serve req st).1 = {| status := 200; body := DataBody updated |} →
  let ideaId := last_segment (pathname req) in
  let st' := (serve req st).2 in
  ∃ fields title t row,
    json_body req = Ret (JObj fields)
    ∧ List.filter (scoped ideaId (user_id keyData)) (ideas st) = [row]
    ∧ fields !! "title" = Some (JStr title)
    ∧ sanitizeMarkdown title = Ret t
    ∧ updated !! "title" = Some (JStr t)
    ∧ (truthy_prop (fields !! "description") = false
       ∧ updated !! "description" = row !! "description"
       ∨ ∃ d d', fields !! "description" = Some (JStr d)
                 ∧ sanitizeMarkdown d = Ret d'
                 ∧ updated !! "description" = Some (JStr d'))
    ∧ (∀ k, k ≠ "title" → k ≠ "description" → k ≠ "id" → k ≠ "user_id" →
            updated !! k = match fields !! k with
                           | Some v => Some v
                           | None => row !! k
                           end)
    ∧ (∀ i : nat, ideas st !! i = Some row → ideas st' !! i = Some updated)
    ∧ length (ideas st') = length (ideas st).
Proof.
  intros Hput Hauth Hperm Hrl Hupdated ideaId st'. subst st'.
  assert (method req ≠ "OPTIONS") as Hoptions by by rewrite Hput.
  rewrite (serve_admitted _ _ _ _ Hoptions Hauth Hperm Hrl) in Hupdated |- *.
  rewrite (dispatch_put _ _ Hput) in Hupdated |- *. fold ideaId in Hupdated |- *.
  apply handle_put_updated in Hupdated
    as (data & patch & row & Hid & Hbody & Hvalid & Hpatch & Hrow & ->
        & ->).
  destruct (title_sanitized _ Hvalid)
    as (title & t & Hprop & _ & Ht & Hsanitized & _).
  destruct (patch_title _ _ Hpatch (valid_title_truthy _ Hvalid))
    as (t' & Ht' & Hpatched).
  assert (t' = t) as -> by congruence.
  destruct (valid_is_object _ _ Hvalid) as [fields ->].
  cbn [prop spread] in *. exists fields, title, t, row.
  repeat (split; [done|]).
  split; [by apply lookup_union_Some_l|].
  split; [|split; [|split]].
  - destruct (truthy_prop (fields !! "description")) eqn:Hgiven.
    + right. destruct (valid_description _ Hvalid Hgiven) as [d Hd].
      destruct (patch_description _ _ Hpatch Hgiven) as (d' & Hd' & Hstored).
      cbn [prop] in Hd, Hd'. rewrite Hd in Hd'. simpl in Hd'.
      exists d, d'. split; [done|]. split; [done|].
      by apply lookup_union_Some_l.
    + left. split; [done|]. apply lookup_union_r.
      by apply (patch_without_description (JObj fields)).
  - intros k Htitlek Hdescriptionk _ _.
    pose proof (patch_lookup _ _ k Hpatch Htitlek Hdescriptionk) as Hk.
    cbn [spread] in Hk.
    destruct (fields !! k) as [v|].
    + by apply lookup_union_Some_l.
    + by apply lookup_union_r.
  - intros i Hi. cbn [ideas counted]. rewrite list_lookup_fmap, Hi. simpl.
    apply filter_singleton in Hrow as [_ Hscoped]. by rewrite Hscoped.
  - cbn [ideas counted]. by rewrite length_fmap.
Qed.

(** X16.  A PUT with a body that passes the validator, whose update the
    table does not carry out: no row with the id of the path belongs to the
    owner of the key, more than one does, or the table refuses the updated
    row.  In each case the answer is 404 with the same message and the table
    is unchanged. *)
Theorem put_not_applied req (st : State) keyData rl updateData patch :
  method req = "PUT" →
  authenticated req keyData → permitted keyData req → admitted st keyData rl →
  is_idea_id (last_segment (pathname req)) = true →
  json_body req = Ret updateData →
  validateIdeaData coerce_gt_500 updateData = Ret [] →
  sanitizedUpdateData updateData = Ret patch →
  let ideaId := last_segment (pathname req) in
  let owner := user_id keyData in
  (∀ row,
     List.filter (scoped ideaId owner) (ideas st) = [row] →
     db_accepts (List.filter (λ r, negb (scoped ideaId owner r)) (ideas st))
                (patch ∪ row) = false) →
  serve req st
  = ({| status := 404;
        body := ErrorBody "Failed to update idea or idea not found" |},
     counted st rl).
Proof.
  intros Hput Hauth Hperm Hrl Hid Hbody Hvalid Hpatch ideaId owner Hnone.
  subst ideaId owner.
  assert (method req ≠ "OPTIONS") as Hoptions by by rewrite Hput.
  rewrite (serve_admitted _ _ _ _ Hoptions Hauth Hperm Hrl).
  rewrite (dispatch_put _ _ Hput).
  unfold Gateway.handle_put, bind, lift. rewrite Hid, Hbody, Hvalid, Hpatch.
  cbn [negb]. unfold Gateway.update_single. cbn [ideas counted].
  destruct (List.filter _ _) as [|row [|? ?]] eqn:Hrow; [done| |done].
  by rewrite (Hnone row eq_refl).
Qed.

(* ------------------------------------------------------------------ *)
(** *** Reading back what was written *)

Lemma filter_selects {A} (f : A → bool) (l : list A) x y :
  List.filter f l = [x] → y ∈ l → f y = true → y = x.
Proof.
  intros Hx Hin Hy.
  assert (In y (List.filter f l)) as Hfiltered.
  { apply filter_In. split; [by apply list_elem_of_In|done]. }
  rewrite Hx in Hfiltered. by destruct Hfiltered as [->|[]].
Qed.

Lemma get_selected req (st : State) keyData rl row :
  method req = "GET" →
  authenticated req keyData → permitted keyData req → admitted st keyData rl →
  is_idea_id (last_segment (pathname req)) = true →
  List.filter (scoped (last_segment (pathname req)) (user_id keyData))
              (ideas st) = [row] →
  serve req st = ({| status := 200; body := DataBody row |}, counted st rl).
Proof.
  intros Hget Hauth Hperm Hrl Hid Hrow.
  assert (method req ≠ "OPTIONS") as Hoptions by by rewrite Hget.
  rewrite (serve_admitted _ _ _ _ Hoptions Hauth Hperm Hrl).
  rewrite (dispatch_get _ _ Hget), (handle_get_single _ _ _ _ Hid).
  cbn [ideas counted]. by rewrite Hrow.
Qed.

(** X17.  POST then GET.  When a POST is answered 201 with a row whose [id]
    is a string that no row of the owner had before, a GET of that id that
    follows, by a key of the same owner, answers 200 with the same row. *)
Theorem post_then_get req (st : State) keyData rl stored ideaId
        req2 keyData2 rl2 :
  method req = "POST" →
  authenticated req keyData → permitted keyData req → admitted st keyData rl →
  (serve req st).1 = {| status := 201; body := DataBody stored |} →
  stored !! "id" = Some (JStr ideaId) → is_idea_id ideaId = true →
  (∀ row, row ∈ ideas st → scoped ideaId (user_id keyData) row = false) →
  let st' := (serve req st).2 in
  method req2 = "GET" → last_segment (pathname req2) = ideaId →
  authenticated req2 keyData2 → user_id keyData2 = user_id keyData →
  permitted keyData2 req2 → admitted st' keyData2 rl2 →
  serve req2 st'
  = ({| status := 200; body := DataBody stored |}, counted st' rl2).
Proof.
  intros Hpost Hauth Hperm Hrl Hcreated Hstored Hid Hfresh st'
         Hget Hpath Hauth2 Howner Hperm2 Hrl2.
  apply (get_selected _ _ keyData2); [done..|by rewrite Hpath|].
  rewrite Hpath, Howner. subst st'.
  assert (method req ≠ "OPTIONS") as Hoptions by by rewrite Hpost.
  rewrite (serve_admitted _ _ _ _ Hoptions Hauth Hperm Hrl) in Hcreated |- *.
  rewrite (dispatch_post _ _ Hpost) in Hcreated |- *.
  apply handle_post_created in Hcreated
    as (data & t & description & _ & _ & _ & _ & Hrow & ->).
  cbn [ideas counted]. rewrite List.filter_app, (filter_nil _ _ Hfresh).
  cbn [List.filter app]. unfold scoped, field_is. rewrite Hstored.
  assert (stored !! "user_id" = Some (JStr (user_id keyData))) as ->.
  { rewrite Hrow. apply lookup_union_Some_l. by rewrite lookup_insert_eq. }
  unfold JStr.eqb. by rewrite !bool_decide_eq_true_2.
Qed.

(** X18.  PUT then GET.  When a PUT whose body has neither [id] nor
    [user_id] is answered 200 with a row, a GET of the same id that follows,
    by a key of the same owner, answers 200 with the same row. *)
Theorem put_then_get req (st : State) keyData rl updateData updated
        req2 keyData2 rl2 :
  method req = "PUT" →
  authenticated req keyData → permitted keyData req → admitted st keyData rl →
  json_body req = Ret updateData →
  prop updateData "id" = None → prop updateData "user_id" = None →
  (serve req st).1 = {| status := 200; body := DataBody updated |} →
  let st' := (serve req st).2 in
  method req2 = "GET" →
  last_segment (pathname req2) = last_segment (pathname req) →
  authenticated req2 keyData2 → user_id keyData2 = user_id keyData →
  permitted keyData2 req2 → admitted st' keyData2 rl2 →
  serve req2 st'
  = ({| status := 200; body := DataBody updated |}, counted st' rl2).
Proof.
  intros Hput Hauth Hperm Hrl Hbody Hnoid Hnoowner Hupdated st'
         Hget Hpath Hauth2 Howner Hperm2 Hrl2.
  apply (get_selected _ _ keyData2); [done..| |].
  { rewrite Hpath. subst st'. clear Hrl2.
    assert (method req ≠ "OPTIONS") as Hoptions by by rewrite Hput.
    rewrite (serve_admitted _ _ _ _ Hoptions Hauth Hperm Hrl) in Hupdated.
    rewrite (dispatch_put _ _ Hput) in Hupdated.
    by apply handle_put_updated in Hupdated as (? & ? & ? & ? & _). }
  rewrite Hpath, Howner. subst st'. clear Hrl2.
  assert (method req ≠ "OPTIONS") as Hoptions by by rewrite Hput.
  rewrite (serve_admitted _ _ _ _ Hoptions Hauth Hperm Hrl) in Hupdated |- *.
  rewrite (dispatch_put _ _ Hput) in Hupdated |- *.
  apply handle_put_updated in Hupdated
    as (data & patch & row & Hid & Hbody' & Hvalid & Hpatch & Hrow & ->
        & Hstate).
  assert (data = updateData) as -> by congruence.
  destruct (valid_is_object _ _ Hvalid) as [fields ->].
  cbn [prop] in Hnoid, Hnoowner.
  assert (∀ r, scoped (last_segment (pathname req)) (user_id keyData)
                      (patch ∪ r)
               = scoped (last_segment (pathname req)) (user_id keyData) r)
    as Hscoped.
  { intros r. unfold scoped.
    rewrite !field_is_union; [done|..].
    - by rewrite (patch_lookup _ _ "user_id" Hpatch).
    - by rewrite (patch_lookup _ _ "id" Hpatch). }
  rewrite Hstate. cbn [ideas].
  by rewrite (filter_updated _ _ _ Hscoped), Hrow.
Qed.

Lemma archived_again (row : gmap string json) :
  row !! "status" = Some (JStr (lit "archived")) → archived_patch ∪ row = row.
Proof.
  intros Hstatus. apply map_eq. intros k.
  destruct (decide (k = "status")) as [->|Hk].
  - rewrite Hstatus. by apply lookup_union_Some_l, lookup_singleton_eq.
  - apply lookup_union_r. by apply lookup_singleton_ne.
Qed.

(** X19.  DELETE of a row that is archived already: the table is left as it
    is, and the answer is 200 with the row unchanged when the table accepts
    the update, 404 otherwise.  So a DELETE repeated on the same id
    writes nothing more. *)
Theorem delete_again req (st : State) keyData rl row :
  method req = "DELETE" →
  authenticated req keyData → permitted keyData req → admitted st keyData rl →
  is_idea_id (last_segment (pathname req)) = true →
  List.filter (scoped (last_segment (pathname req)) (user_id keyData))
              (ideas st) = [row] →
  row !! "status" = Some (JStr (lit "archived")) →
  ideas (serve req st).2 = ideas st
  ∧ ((serve req st).1
     = {| status := 200;
          body := ArchivedBody row "Idea archived successfully" |}
     ∨ (serve req st).1
       = {| status := 404;
            body := ErrorBody "Failed to delete idea or idea not found" |}).
Proof.
  intros Hdelete Hauth Hperm Hrl Hid Hrow Hstatus.
  assert (method req ≠ "OPTIONS") as Hoptions by by rewrite Hdelete.
  rewrite (serve_admitted _ _ _ _ Hoptions Hauth Hperm Hrl).
  rewrite (dispatch_delete _ _ Hdelete).
  destruct (handle_delete_cases keyData (last_segment (pathname req))
                                (counted st rl) Hid)
    as [-> | (row' & Hrow' & ->)]; [split; [done|by right]|].
  cbn [ideas counted] in Hrow'. assert (row' = row) as -> by congruence.
  cbn [catch fst snd ideas counted]. rewrite (archived_again _ Hstatus).
  split; [|by left].
  apply list_eq. intros i. rewrite list_lookup_fmap.
  destruct (ideas st !! i) as [r|] eqn:Hi; [|done]. simpl.
  destruct (scoped _ _ r) eqn:Hr; [|done].
  assert (r = row) as ->.
  { apply (filter_selects _ _ _ _ Hrow); [|done].
    by apply (list_elem_of_lookup_2 _ i). }
  by rewrite (archived_again _ Hstatus).
Qed.

(* ------------------------------------------------------------------ *)
(** *** The id of the path *)

Lemma split_slash_last prefix seg :
  47%N ∉ seg →
  ∃ h r, split_slash (prefix ++ 47%N :: seg) = h :: r
         ∧ r ≠ [] ∧ List.last r [] = seg.
Proof.
  intros Hseg.
  assert (split_slash seg = [seg]) as Hone.
  { induction seg as [|c t IH]; [done|]. cbn [split_slash].
    destruct (c =? 47)%N eqn:Hc.
    - apply N.eqb_eq in Hc as ->. destruct Hseg. apply list_elem_of_here.
    - rewrite IH; [done|]. intros Hin. apply Hseg.
      by apply list_elem_of_further. }
  induction prefix as [|c p (h & r & IH & Hr & Hlast)].
  - exists [], [seg]. cbn [app split_slash]. rewrite N.eqb_refl, Hone.
    by repeat split.
  - cbn [app split_slash]. rewrite IH. destruct (c =? 47)%N.
    + exists [], (h :: r). repeat split; [done|].
      by destruct r.
    + exists (c :: h), r. by repeat split.
Qed.

(** X20.  The id of a request is what follows the last ['/'] of its path.
    It counts as an idea id unless it is empty or is [ai-ideas]: a path that
    ends in [/ai-ideas] or in ['/'] addresses the collection. *)
Theorem path_routing prefix seg :
  47%N ∉ seg →
  last_segment (prefix ++ 47%N :: seg) = seg
  ∧ (is_idea_id (last_segment (prefix ++ 47%N :: seg)) = true
     ↔ seg ≠ [] ∧ seg ≠ lit "ai-ideas").
Proof.
  intros Hseg.
  assert (last_segment (prefix ++ 47%N :: seg) = seg) as ->.
  { unfold last_segment.
    destruct (split_slash_last prefix seg Hseg) as (h & r & -> & Hr & Hlast).
    by destruct r. }
  split; [done|]. unfold is_idea_id, JStr.eqb.
  rewrite andb_true_iff, !negb_true_iff, !bool_decide_eq_false. done.
Qed.

End Pipeline.

(* ================================================================== *)
(** ** Failures of authentication and of the rate limit *)

Import World.

(** C3.  What the handler answers to a key that does not authenticate: a key
    without the prefix [iah_], a failing credential store, an unknown key
    and a revoked key each get status 500 with the message of the thrown
    error, and the table is left alone; only a missing header gets 401. *)
Theorem authentication_failures_answer_500 :
  let get key := request "GET" key "/functions/v1/ai-ideas" [] no_body in
  World.serve (get "secret") start
  = ({| status := 500; body := ErrorBody "Invalid API key format" |}, start)
  ∧ World.serve (get "iah_down") start
    = ({| status := 500; body := ErrorBody "Authentication failed" |}, start)
  ∧ World.serve (get "iah_nobody") start
    = ({| status := 500; body := ErrorBody "Invalid API key" |}, start)
  ∧ World.serve (get "iah_old") start
    = ({| status := 500; body := ErrorBody "API key is expired or inactive" |},
       start)
  ∧ World.serve {| method := "GET"; x_api_key := None;
                   pathname := lit "/functions/v1/ai-ideas";
                   searchParams := []; json_body := no_body |} start
    = ({| status := 401;
          body := ErrorBody "API key required in x-api-key header" |}, start).
Proof.
  intros get. unfold World.serve.
  repeat apply conj;
    [ erewrite serve_unauthenticated;
      [ | discriminate | reflexivity | reflexivity]; reflexivity ..
    | reflexivity ].
Qed.

(** C4.  What the handler answers when the limiter refuses the request:
    status 500 with the message [Rate limit exceeded]; the table is left
    alone and the attempt is counted. *)
Theorem rate_limit_denial_answers_500 :
  let spent := {| ideas := table; limiter := 1000%nat |} in
  World.serve (request "GET" "iah_alice" "/functions/v1/ai-ideas/i1" []
                       no_body) spent
  = ({| status := 500; body := ErrorBody "Rate limit exceeded" |},
     {| ideas := table; limiter := 1001%nat |}).
Proof.
  intros spent. unfold World.serve.
  erewrite (serve_rate_limited _ _ _ _ _ _ _ _ _ alice).
  - reflexivity.
  - discriminate.
  - eexists. split; reflexivity.
  - reflexivity.
  - reflexivity.
Qed.

(* ================================================================== *)
(** ** The sanitizer *)

(** C6.  One pass of [sanitizeMarkdown] over [javajavascript:script:] removes
    the inner [javascript:] and returns the [javascript:] that closes up
    around it; a second pass removes that one too, so the two passes
    differ. *)
Theorem sanitize_leaves_javascript_url :
  ∃ once,
    sanitizeMarkdown (lit "javajavascript:script:") = Ret once
    ∧ once = lit "javascript:"
    ∧ contains_ci (lit "javascript:") once = true
    ∧ sanitizeMarkdown once = Ret []
    ∧ sanitizeMarkdown once ≠ Ret once.
Proof.
  exists (lit "javascript:"). vm_compute.
  repeat apply conj; try reflexivity. discriminate.
Qed.

(** The same happens across the passes: the tag pass and the [data:] pass
    each close up text that an earlier pass has already gone over. *)
Example sanitize_leaves_script_tag :
  sanitizeMarkdown (lit "<scr<script>ipt>alert(1)") = Ret (lit "<script>alert(1)")
  ∧ sanitizeMarkdown (lit "javadata:script:x") = Ret (lit "javascript:x").
Proof. vm_compute. repeat apply conj; reflexivity. Qed.

(* ================================================================== *)
(** ** Updates *)

(** C5.  A PUT whose body is [{"status": "research"}], on an idea of the
    caller: the validator asks for a title, the handler answers 400 and the
    table is unchanged. *)
Theorem put_without_title_is_rejected :
  World.serve
    (request "PUT" "iah_alice" "/functions/v1/ai-ideas/i1" []
             (Ret (JObj {[ "status" := JStr (lit "research") ]}))) start
  = ({| status := 400;
        body := ValidationBody "Validation failed" [msg_title_required] |},
     {| ideas := table; limiter := 1%nat |}).
Proof. vm_compute. reflexivity. Qed.

(** C2.  A PUT by alice on her idea [i1] with a body that carries
    [user_id: "u-bob"]: the handler answers 200 and the row now belongs to
    bob. *)
Theorem put_reassigns_owner :
  let req :=
    request "PUT" "iah_alice" "/functions/v1/ai-ideas/i1" []
            (Ret (JObj {[ "title" := JStr (lit "first");
                          "user_id" := JStr (lit "u-bob") ]})) in
  let before := start in
  let after := (World.serve req start).2 in
  status (World.serve req start).1 = 200
  ∧ (ideas before !! 0%nat) ≫= (.!! "id") = Some (JStr (lit "i1"))
  ∧ (ideas before !! 0%nat) ≫= (.!! "user_id") = Some (JStr (lit "u-alice"))
  ∧ (ideas after !! 0%nat) ≫= (.!! "id") = Some (JStr (lit "i1"))
  ∧ (ideas after !! 0%nat) ≫= (.!! "user_id") = Some (JStr (lit "u-bob")).
Proof. vm_compute. repeat apply conj; reflexivity. Qed.

(* ================================================================== *)
(** ** Scenarios *)

Local Ltac as_alice :=
  first [ discriminate
        | reflexivity
        | by (eexists; split; reflexivity) ].

(** C1 at work: bob asks for [i1], which is alice's. *)
Lemma owner_isolation_witness :
  let req := request "GET" "iah_bob" "/functions/v1/ai-ideas/i1" [] no_body in
  Gateway.authenticated World.validate_api_key req bob
  ∧ permitted bob req
  ∧ Gateway.admitted nat World.check_rate_limit start bob 1%nat
  ∧ (World.serve req start).1
    = {| status := 404; body := ErrorBody "Idea not found" |}.
Proof.
  intros req.
  assert (Gateway.authenticated World.validate_api_key req bob) as Hauth
    by as_alice.
  assert (permitted bob req) as Hperm by as_alice.
  assert (Gateway.admitted nat World.check_rate_limit start bob 1%nat) as Hrl
    by as_alice.
  split; [exact Hauth|]. split; [exact Hperm|]. split; [exact Hrl|].
  destruct (owner_isolation nat World.validate_api_key World.check_rate_limit
              World.db_defaults World.db_accepts World.db_select_many
              World.coerce_gt_500 req start) as [_ Hscoped].
  destruct (Hscoped bob 1%nat Hauth Hperm Hrl) as (Hget & _).
  destruct (Hget eq_refl eq_refl) as (_ & Hmissing & _).
  apply Hmissing. intros row Hin.
  apply elem_of_cons in Hin as [->|Hin]; [by vm_compute|].
  apply elem_of_cons in Hin as [->|Hin]; [by vm_compute|].
  by apply elem_of_nil in Hin.
Defined.

(** C7 at work: alice deletes [i1] and then reads it. *)
Lemma delete_archives_witness :
  let req := request "DELETE" "iah_alice" "/functions/v1/ai-ideas/i1" []
                     no_body in
  let again := request "GET" "iah_alice" "/functions/v1/ai-ideas/i1" []
                       no_body in
  let row := idea "i1" "u-alice" "first" in
  let archived := archived_patch ∪ row in
  method req = "DELETE"
  ∧ Gateway.authenticated World.validate_api_key req alice
  ∧ permitted alice req
  ∧ Gateway.admitted nat World.check_rate_limit start alice 1%nat
  ∧ is_idea_id (last_segment (pathname req)) = true
  ∧ length (ideas (World.serve req start).2) = length (ideas start)
  ∧ (World.serve req start).1
    = {| status := 200;
         body := ArchivedBody archived "Idea archived successfully" |}
  ∧ (World.serve again (World.serve req start).2).1
    = {| status := 200; body := DataBody archived |}.
Proof.
  intros req again row archived.
  assert (Gateway.authenticated World.validate_api_key req alice) as Hauth
    by as_alice.
  assert (permitted alice req) as Hperm by as_alice.
  assert (Gateway.admitted nat World.check_rate_limit start alice 1%nat)
    as Hrl by as_alice.
  assert (is_idea_id (last_segment (pathname req)) = true) as Hid
    by reflexivity.
  destruct (delete_archives nat World.validate_api_key World.check_rate_limit
              World.db_defaults World.db_accepts World.db_select_many
              World.coerce_gt_500 req start alice 1%nat eq_refl Hauth Hperm
              Hrl Hid) as (Hlen & Hdone & _).
  destruct (Hdone row) as (Hresponse & _ & _ & _ & _ & Hread);
    [vm_compute; reflexivity..|].
  split; [reflexivity|]. split; [exact Hauth|]. split; [exact Hperm|].
  split; [exact Hrl|]. split; [exact Hid|]. split; [exact Hlen|].
  split; [exact Hresponse|].
  unfold World.serve.
  rewrite (Hread again alice 2%nat eq_refl eq_refl
                 ltac:(as_alice) eq_refl ltac:(as_alice) eq_refl).
  reflexivity.
Defined.

(** C8, as the claim has it, fails on [limit=0] with a [status] that is no
    status: the request is answered 200, and [meta] reports the limit 0. *)
Lemma collection_limit_below_one :
  let req := request "GET" "iah_alice" "/functions/v1/ai-ideas"
                     [("limit", "0"); ("status", "bogus")] no_body in
  (World.serve req start).1
  = {| status := 200; body := ListBody [] (Num 0) (Num 0) 0 |}
  ∧ ¬ (1 <= 0 <= 100)
  ∧ lit "bogus" ∉ valid_statuses.
Proof.
  split; [by vm_compute|]. split; [lia|].
  intros Hin. by repeat (apply elem_of_cons in Hin as [Hin|Hin]; [done|]);
    apply elem_of_nil in Hin.
Qed.

(** C8 at work: [limit=500]. *)
Lemma collection_parameters_witness :
  let req := request "GET" "iah_alice" "/functions/v1/ai-ideas"
                     [("limit", "500")] no_body in
  method req = "GET"
  ∧ Gateway.authenticated World.validate_api_key req alice
  ∧ permitted alice req
  ∧ Gateway.admitted nat World.check_rate_limit start alice 1%nat
  ∧ is_idea_id (last_segment (pathname req)) = false
  ∧ effective_limit (searchParams req) = Num 100
  ∧ (World.serve req start).1
    = {| status := 200;
         body := ListBody [idea "i1" "u-alice" "first"] (Num 100) (Num 0) 1 |}.
Proof.
  intros req.
  assert (Gateway.authenticated World.validate_api_key req alice) as Hauth
    by as_alice.
  assert (permitted alice req) as Hperm by as_alice.
  assert (Gateway.admitted nat World.check_rate_limit start alice 1%nat)
    as Hrl by as_alice.
  assert (is_idea_id (last_segment (pathname req)) = false) as Hid
    by reflexivity.
  destruct (collection_parameters nat World.validate_api_key
              World.check_rate_limit World.db_defaults World.db_accepts
              World.db_select_many World.coerce_gt_500 req start alice 1%nat
              eq_refl Hauth Hperm Hrl Hid)
    as (Hserve & _ & _ & _ & _ & _ & _ & _ & Hdigits & _).
  destruct (Hdigits (lit "500")) as [Hlimit _];
    [done|by repeat constructor|].
  split; [reflexivity|]. split; [exact Hauth|]. split; [exact Hperm|].
  split; [exact Hrl|]. split; [exact Hid|].
  split; [exact (Hlimit eq_refl)|].
  unfold World.serve. rewrite Hserve. by vm_compute.
Defined.

(** C9, as the claim has it, fails on an empty color: it is there, it is not
    a hex color, and the validator has nothing to say. *)
Lemma empty_color_passes :
  validateIdeaData World.coerce_gt_500
    (JObj {[ "title" := JStr (lit "T"); "color" := JStr [] ]})
  = Ret []
  ∧ ¬ Rules.hex_color [].
Proof. split; [by vm_compute|]. by intros (? & ? & _). Qed.

(** C9 at work, on the same body. *)
Lemma validator_complete_witness :
  let data := JObj {[ "title" := JStr (lit "T"); "color" := JStr [] ]} in
  data ≠ JNull
  ∧ ∃ errors,
      validateIdeaData World.coerce_gt_500 data = Ret errors
      ∧ msg_color ∉ errors.
Proof.
  intros data. split; [done|].
  destruct (validator_complete World.coerce_gt_500 data)
    as (errors & Herrors & _ & _ & _ & _ & _ & _ & _ & _ & Hempty); [done|].
  exists errors. split; [exact Herrors|]. by apply Hempty.
Defined.

(** C10, as the claim has it, fails on an empty title, which is rejected,
    and on a description of one space, which passes for a value and leaves
    the stored description empty. *)
Lemma put_empty_title_is_rejected :
  let put body := request "PUT" "iah_alice" "/functions/v1/ai-ideas/i1" []
                          (Ret (JObj body)) in
  (World.serve (put {[ "title" := JStr [] ]}) start).1
  = {| status := 400;
       body := ValidationBody "Validation failed" [msg_title_required] |}
  ∧ status (World.serve (put {[ "title" := JStr (lit "first");
                                "description" := JStr (lit " ") ]}) start).1
    = 200
  ∧ (ideas (World.serve (put {[ "title" := JStr (lit "first");
                                "description" := JStr (lit " ") ]}) start).2
           !! 0%nat) ≫= (.!! "description")
    = Some (JStr []).
Proof. by vm_compute. Qed.

(** C10 at work: a PUT with an empty description. *)
Lemma put_falsy_fields_witness :
  let updateData := JObj {[ "title" := JStr (lit "renamed");
                            "description" := JStr [] ]} in
  let req := request "PUT" "iah_alice" "/functions/v1/ai-ideas/i1" []
                     (Ret updateData) in
  method req = "PUT"
  ∧ Gateway.authenticated World.validate_api_key req alice
  ∧ permitted alice req
  ∧ Gateway.admitted nat World.check_rate_limit start alice 1%nat
  ∧ is_idea_id (last_segment (pathname req)) = true
  ∧ json_body req = Ret updateData
  ∧ updateData ≠ JNull
  ∧ ∃ row', ideas (World.serve req start).2 !! 0%nat = Some row'
            ∧ row' !! "description" = Some (JStr (lit "notes")).
Proof.
  intros updateData req.
  assert (Gateway.authenticated World.validate_api_key req alice) as Hauth
    by as_alice.
  assert (permitted alice req) as Hperm by as_alice.
  assert (Gateway.admitted nat World.check_rate_limit start alice 1%nat)
    as Hrl by as_alice.
  assert (is_idea_id (last_segment (pathname req)) = true) as Hid
    by reflexivity.
  assert (updateData ≠ JNull) as Hdata by done.
  destruct (put_falsy_fields nat World.validate_api_key World.check_rate_limit
              World.db_defaults World.db_accepts World.db_select_many
              World.coerce_gt_500 req start alice 1%nat updateData
              eq_refl Hauth Hperm Hrl Hid eq_refl Hdata) as [_ Hdescription].
  destruct (Hdescription eq_refl) as (_ & _ & Hkept & _).
  destruct (Hkept 0%nat (idea "i1" "u-alice" "first") eq_refl)
    as (row' & Hrow' & Hsame).
  split; [reflexivity|]. split; [exact Hauth|]. split; [exact Hperm|].
  split; [exact Hrl|]. split; [exact Hid|]. split; [reflexivity|].
  split; [exact Hdata|].
  exists row'. split; [exact Hrow'|]. rewrite Hsame. by vm_compute.
Defined.

(* ================================================================== *)
(** ** The further properties at work *)

(** X2 at work: a title with spaces around it. *)
Lemma sanitize_trimmed_witness :
  sanitizeMarkdown (lit "  # Title <b>x</b> ") = Ret (lit "# Title <b>x</b>")
  ∧ trim (lit "# Title <b>x</b>") = lit "# Title <b>x</b>".
Proof.
  assert (sanitizeMarkdown (lit "  # Title <b>x</b> ")
          = Ret (lit "# Title <b>x</b>")) as Hout
    by (vm_compute; reflexivity).
  split; [exact Hout|]. exact (sanitize_trimmed _ _ Hout).
Defined.

(** X3 at work: plain markdown. *)
Lemma sanitize_plain_text_witness :
  let content := lit " **bold** and [a link](https://example.org) " in
  (60%N ∉ content)
  ∧ sanitizeMarkdown content = Ret (trim content).
Proof.
  intros content.
  assert (60%N ∉ content) as Hangle
    by (apply (bool_decide_unpack _); vm_compute; exact I).
  split; [exact Hangle|].
  apply (sanitize_plain_text content Hangle).
  - vm_compute. reflexivity.
  - vm_compute. reflexivity.
  - vm_compute. discriminate.
Defined.

(** X4 at work: three rules broken at once. *)
Lemma errors_in_order_witness :
  let data := JObj {[ "status" := JStr (lit "bogus"); "tags" := JArr [JNull] ]} in
  validateIdeaData World.coerce_gt_500 data
  = Ret [msg_title_required; msg_status; msg_tags]
  ∧ [msg_title_required; msg_status; msg_tags]
    `sublist_of` [msg_title_required; msg_title_length; msg_description;
                  msg_status; msg_tags; msg_color].
Proof.
  intros data.
  assert (validateIdeaData World.coerce_gt_500 data
          = Ret [msg_title_required; msg_status; msg_tags]) as Herrors
    by (vm_compute; reflexivity).
  split; [exact Herrors|].
  exact (errors_in_order World.coerce_gt_500 data _ Herrors).
Defined.

(** X5 at work: a key that may only read asks for a DELETE. *)
Lemma forbidden_before_rate_limit_witness :
  let reader := {| api_key_id := lit "k"; is_valid := true;
                   permissions := [lit "read"]; rate_limit_per_hour := 10;
                   user_id := lit "u-alice" |} in
  let req := request "DELETE" "iah_reader" "/functions/v1/ai-ideas/i1" []
                     no_body in
  Gateway.authenticated (λ _, RpcData (Some [reader])) req reader
  ∧ includes (permissions reader) (requiredPermission req) = false
  ∧ Gateway.serve nat (λ _, RpcData (Some [reader])) World.check_rate_limit
                  World.db_defaults World.db_accepts World.db_select_many
                  World.coerce_gt_500 req start
    = ({| status := 403;
          body := ErrorBody "Insufficient permissions. Required: write" |},
       start).
Proof.
  intros reader req.
  assert (Gateway.authenticated (λ _, RpcData (Some [reader])) req reader)
    as Hauth by as_alice.
  split; [exact Hauth|]. split; [reflexivity|].
  destruct (forbidden_before_rate_limit nat (λ _, RpcData (Some [reader]))
              World.check_rate_limit World.db_defaults World.db_accepts
              World.db_select_many World.coerce_gt_500 req start reader)
    as [Hserve _]; [discriminate|exact Hauth|reflexivity..|].
  exact Hserve.
Defined.

(** X6 at work: a GET by alice takes the counter from 0 to 1. *)
Lemma limiter_accounting_witness :
  let req := request "GET" "iah_alice" "/functions/v1/ai-ideas/i1" [] no_body in
  limiter (World.serve req start).2 = 1%nat.
Proof.
  intros req.
  destruct (limiter_accounting nat World.validate_api_key
              World.check_rate_limit World.db_defaults World.db_accepts
              World.db_select_many World.coerce_gt_500 req start)
    as [Hcounted _].
  exact (Hcounted alice ltac:(discriminate) ltac:(as_alice) ltac:(as_alice)).
Defined.

(** X7 at work: the DELETE of [i1] by alice changes the table. *)
Lemma writes_need_authority_witness :
  let req := request "DELETE" "iah_alice" "/functions/v1/ai-ideas/i1" []
                     no_body in
  ideas (World.serve req start).2 ≠ ideas start
  ∧ (method req = "POST" ∨ method req = "PUT" ∨ method req = "DELETE").
Proof.
  intros req.
  assert (ideas (World.serve req start).2 ≠ ideas start) as Hchanged.
  { intros Hsame.
    apply (f_equal (λ rows, rows !! 0%nat ≫= (.!! "status"))) in Hsame.
    vm_compute in Hsame. discriminate Hsame. }
  split; [exact Hchanged|].
  destruct (writes_need_authority nat World.validate_api_key
              World.check_rate_limit World.db_defaults World.db_accepts
              World.db_select_many World.coerce_gt_500 req start Hchanged)
    as (_ & _ & _ & _ & _ & _ & _ & _ & _ & Hmethod).
  exact Hmethod.
Defined.

(** X9 at work: a PATCH. *)
Lemma method_not_allowed_witness :
  let req := request "PATCH" "iah_alice" "/functions/v1/ai-ideas/i1" []
                     no_body in
  Gateway.authenticated World.validate_api_key req alice
  ∧ permitted alice req
  ∧ Gateway.admitted nat World.check_rate_limit start alice 1%nat
  ∧ World.serve req start
    = ({| status := 405; body := ErrorBody "Method not allowed" |},
       Gateway.counted nat start 1%nat).
Proof.
  intros req.
  assert (Gateway.authenticated World.validate_api_key req alice) as Hauth
    by as_alice.
  assert (permitted alice req) as Hperm by as_alice.
  assert (Gateway.admitted nat World.check_rate_limit start alice 1%nat)
    as Hrl by as_alice.
  split; [exact Hauth|]. split; [exact Hperm|]. split; [exact Hrl|].
  apply (method_not_allowed nat World.validate_api_key World.check_rate_limit
           World.db_defaults World.db_accepts World.db_select_many
           World.coerce_gt_500 req start alice 1%nat);
    [discriminate..|exact Hauth|exact Hperm|exact Hrl].
Defined.

(** X10 at work: a PUT on the collection. *)
Lemma id_required_witness :
  let req := request "PUT" "iah_alice" "/functions/v1/ai-ideas" []
                     (Ret (JObj {[ "title" := JStr (lit "renamed") ]})) in
  Gateway.authenticated World.validate_api_key req alice
  ∧ permitted alice req
  ∧ Gateway.admitted nat World.check_rate_limit start alice 1%nat
  ∧ is_idea_id (last_segment (pathname req)) = false
  ∧ World.serve req start
    = ({| status := 400; body := ErrorBody "Idea ID required for updates" |},
       Gateway.counted nat start 1%nat).
Proof.
  intros req.
  assert (Gateway.authenticated World.validate_api_key req alice) as Hauth
    by as_alice.
  assert (permitted alice req) as Hperm by as_alice.
  assert (Gateway.admitted nat World.check_rate_limit start alice 1%nat)
    as Hrl by as_alice.
  assert (is_idea_id (last_segment (pathname req)) = false) as Hid
    by reflexivity.
  split; [exact Hauth|]. split; [exact Hperm|]. split; [exact Hrl|].
  split; [exact Hid|].
  destruct (id_required nat World.validate_api_key World.check_rate_limit
              World.db_defaults World.db_accepts World.db_select_many
              World.coerce_gt_500 req start alice 1%nat Hauth Hperm Hrl Hid)
    as [Hput _].
  exact (Hput eq_refl).
Defined.

(** X11 at work: a POST without a title and with a status that is none. *)
Lemma invalid_body_rejected_witness :
  let data := JObj {[ "status" := JStr (lit "bogus") ]} in
  let req := request "POST" "iah_alice" "/functions/v1/ai-ideas" []
                     (Ret data) in
  Gateway.authenticated World.validate_api_key req alice
  ∧ permitted alice req
  ∧ Gateway.admitted nat World.check_rate_limit start alice 1%nat
  ∧ validateIdeaData World.coerce_gt_500 data
    = Ret [msg_title_required; msg_status]
  ∧ World.serve req start
    = ({| status := 400;
          body := ValidationBody "Validation failed"
                                 [msg_title_required; msg_status] |},
       Gateway.counted nat start 1%nat).
Proof.
  intros data req.
  assert (Gateway.authenticated World.validate_api_key req alice) as Hauth
    by as_alice.
  assert (permitted alice req) as Hperm by as_alice.
  assert (Gateway.admitted nat World.check_rate_limit start alice 1%nat)
    as Hrl by as_alice.
  assert (validateIdeaData World.coerce_gt_500 data
          = Ret [msg_title_required; msg_status]) as Herrors
    by (vm_compute; reflexivity).
  split; [exact Hauth|]. split; [exact Hperm|]. split; [exact Hrl|].
  split; [exact Herrors|].
  apply (invalid_body_rejected nat World.validate_api_key
           World.check_rate_limit World.db_defaults World.db_accepts
           World.db_select_many World.coerce_gt_500 req start alice 1%nat
           data _ (or_introl eq_refl) Hauth Hperm Hrl eq_refl Herrors).
  discriminate.
Defined.

(** X12 at work: a POST with no body. *)
Lemma body_not_an_object_witness :
  let req := request "POST" "iah_alice" "/functions/v1/ai-ideas" [] no_body in
  Gateway.authenticated World.validate_api_key req alice
  ∧ permitted alice req
  ∧ Gateway.admitted nat World.check_rate_limit start alice 1%nat
  ∧ World.serve req start
    = ({| status := 500; body := ErrorBody "Unexpected end of JSON input" |},
       Gateway.counted nat start 1%nat).
Proof.
  intros req.
  assert (Gateway.authenticated World.validate_api_key req alice) as Hauth
    by as_alice.
  assert (permitted alice req) as Hperm by as_alice.
  assert (Gateway.admitted nat World.check_rate_limit start alice 1%nat)
    as Hrl by as_alice.
  split; [exact Hauth|]. split; [exact Hperm|]. split; [exact Hrl|].
  destruct (body_not_an_object nat World.validate_api_key
              World.check_rate_limit World.db_defaults World.db_accepts
              World.db_select_many World.coerce_gt_500 req start alice 1%nat
              (or_introl eq_refl) Hauth Hperm Hrl) as [Hthrow _].
  exact (Hthrow _ eq_refl).
Defined.

(** X13 at work: a title with spaces around it. *)
Lemma valid_title_sanitizes_witness :
  let data := JObj {[ "title" := JStr (lit " T ") ]} in
  validateIdeaData World.coerce_gt_500 data = Ret []
  ∧ ∃ t, sanitize_prop (prop data "title") = Ret t ∧ len t <= 500.
Proof.
  intros data.
  assert (validateIdeaData World.coerce_gt_500 data = Ret []) as Hvalid
    by (vm_compute; reflexivity).
  split; [exact Hvalid|].
  destruct (valid_title_sanitizes World.coerce_gt_500 data Hvalid)
    as (title & t & _ & Ht & _ & Hlen & _).
  exists t. split; [exact Ht|exact Hlen].
Defined.

(** X14 at work: alice posts a title. *)
Lemma post_stores_sanitized_witness :
  let fields : gmap string json := {[ "title" := JStr (lit " T ") ]} in
  let req := request "POST" "iah_alice" "/functions/v1/ai-ideas" []
                     (Ret (JObj fields)) in
  let stored :=
    <["user_id" := JStr (lit "u-alice")]>
      (<["description" := JNull]> (<["title" := JStr (lit "T")]> fields))
    ∪ World.db_defaults table in
  Gateway.authenticated World.validate_api_key req alice
  ∧ permitted alice req
  ∧ Gateway.admitted nat World.check_rate_limit start alice 1%nat
  ∧ (World.serve req start).1 = {| status := 201; body := DataBody stored |}
  ∧ ∃ t, stored !! "title" = Some (JStr t).
Proof.
  intros fields req stored.
  assert (Gateway.authenticated World.validate_api_key req alice) as Hauth
    by as_alice.
  assert (permitted alice req) as Hperm by as_alice.
  assert (Gateway.admitted nat World.check_rate_limit start alice 1%nat)
    as Hrl by as_alice.
  assert ((World.serve req start).1
          = {| status := 201; body := DataBody stored |}) as Hcreated
    by (vm_compute; reflexivity).
  split; [exact Hauth|]. split; [exact Hperm|]. split; [exact Hrl|].
  split; [exact Hcreated|].
  destruct (post_stores_sanitized nat World.validate_api_key
              World.check_rate_limit World.db_defaults World.db_accepts
              World.db_select_many World.coerce_gt_500 req start alice 1%nat
              stored eq_refl Hauth Hperm Hrl Hcreated)
    as (_ & _ & t & _ & _ & _ & Htitle & _).
  exists t. exact Htitle.
Defined.

(** X15 at work: alice renames [i1] and gives it a color. *)
Lemma put_merges_witness :
  let fields : gmap string json :=
    {[ "title" := JStr (lit "renamed"); "color" := JStr (lit "#000000") ]} in
  let req := request "PUT" "iah_alice" "/functions/v1/ai-ideas/i1" []
                     (Ret (JObj fields)) in
  let updated := fields ∪ idea "i1" "u-alice" "first" in
  Gateway.authenticated World.validate_api_key req alice
  ∧ permitted alice req
  ∧ Gateway.admitted nat World.check_rate_limit start alice 1%nat
  ∧ (World.serve req start).1 = {| status := 200; body := DataBody updated |}
  ∧ (∃ t, updated !! "title" = Some (JStr t))
  ∧ length (ideas (World.serve req start).2) = length (ideas start).
Proof.
  intros fields req updated.
  assert (Gateway.authenticated World.validate_api_key req alice) as Hauth
    by as_alice.
  assert (permitted alice req) as Hperm by as_alice.
  assert (Gateway.admitted nat World.check_rate_limit start alice 1%nat)
    as Hrl by as_alice.
  assert ((World.serve req start).1
          = {| status := 200; body := DataBody updated |}) as Hupdated
    by (vm_compute; reflexivity).
  split; [exact Hauth|]. split; [exact Hperm|]. split; [exact Hrl|].
  split; [exact Hupdated|].
  destruct (put_merges nat World.validate_api_key
              World.check_rate_limit World.db_defaults World.db_accepts
              World.db_select_many World.coerce_gt_500 req start alice 1%nat
              updated eq_refl Hauth Hperm Hrl Hupdated)
    as (_ & _ & t & _ & _ & _ & _ & _ & Htitle & _ & _ & _ & Hlength).
  split; [by exists t|exact Hlength].
Defined.

(** X16 at work: alice tries to rename [i2], which is bob's. *)
Lemma put_not_applied_witness :
  let updateData := JObj {[ "title" := JStr (lit "mine") ]} in
  let req := request "PUT" "iah_alice" "/functions/v1/ai-ideas/i2" []
                     (Ret updateData) in
  Gateway.authenticated World.validate_api_key req alice
  ∧ permitted alice req
  ∧ Gateway.admitted nat World.check_rate_limit start alice 1%nat
  ∧ validateIdeaData World.coerce_gt_500 updateData = Ret []
  ∧ List.filter (scoped (last_segment (pathname req)) (user_id alice))
                (ideas start) = []
  ∧ World.serve req start
    = ({| status := 404;
          body := ErrorBody "Failed to update idea or idea not found" |},
       Gateway.counted nat start 1%nat).
Proof.
  intros updateData req.
  assert (Gateway.authenticated World.validate_api_key req alice) as Hauth
    by as_alice.
  assert (permitted alice req) as Hperm by as_alice.
  assert (Gateway.admitted nat World.check_rate_limit start alice 1%nat)
    as Hrl by as_alice.
  assert (validateIdeaData World.coerce_gt_500 updateData = Ret []) as Hvalid
    by (vm_compute; reflexivity).
  assert (List.filter (scoped (last_segment (pathname req)) (user_id alice))
                      (ideas start) = []) as Hnone
    by (vm_compute; reflexivity).
  split; [exact Hauth|]. split; [exact Hperm|]. split; [exact Hrl|].
  split; [exact Hvalid|]. split; [exact Hnone|].
  apply (put_not_applied nat World.validate_api_key
           World.check_rate_limit World.db_defaults World.db_accepts
           World.db_select_many World.coerce_gt_500 req start alice 1%nat
           updateData {[ "title" := JStr (lit "mine") ]}
           eq_refl Hauth Hperm Hrl eq_refl eq_refl Hvalid).
  - vm_compute. reflexivity.
  - intros row Hrow. rewrite Hnone in Hrow. discriminate Hrow.
Defined.

(** X17 at work: alice posts an idea under the id [i9] and reads it. *)
Lemma post_then_get_witness :
  let fields : gmap string json :=
    {[ "title" := JStr (lit "T"); "id" := JStr (lit "i9") ]} in
  let req := request "POST" "iah_alice" "/functions/v1/ai-ideas" []
                     (Ret (JObj fields)) in
  let req2 := request "GET" "iah_alice" "/functions/v1/ai-ideas/i9" []
                      no_body in
  let stored :=
    <["user_id" := JStr (lit "u-alice")]>
      (<["description" := JNull]> (<["title" := JStr (lit "T")]> fields))
    ∪ World.db_defaults table in
  (World.serve req start).1 = {| status := 201; body := DataBody stored |}
  ∧ stored !! "id" = Some (JStr (lit "i9"))
  ∧ (World.serve req2 (World.serve req start).2).1
    = {| status := 200; body := DataBody stored |}.
Proof.
  intros fields req req2 stored.
  assert ((World.serve req start).1
          = {| status := 201; body := DataBody stored |}) as Hcreated
    by (vm_compute; reflexivity).
  assert (stored !! "id" = Some (JStr (lit "i9"))) as Hid
    by (vm_compute; reflexivity).
  split; [exact Hcreated|]. split; [exact Hid|].
  unfold World.serve.
  rewrite (post_then_get nat World.validate_api_key
             World.check_rate_limit World.db_defaults World.db_accepts
             World.db_select_many World.coerce_gt_500 req start alice 1%nat
             stored (lit "i9") req2 alice 2%nat
             eq_refl ltac:(as_alice) ltac:(as_alice) ltac:(as_alice)
             Hcreated Hid eq_refl).
  - reflexivity.
  - intros row Hin.
    apply elem_of_cons in Hin as [->|Hin]; [vm_compute; reflexivity|].
    apply elem_of_cons in Hin as [->|Hin]; [vm_compute; reflexivity|].
    by apply elem_of_nil in Hin.
  - reflexivity.
  - reflexivity.
  - as_alice.
  - reflexivity.
  - as_alice.
  - as_alice.
Defined.

(** X18 at work: alice renames [i1] and reads it. *)
Lemma put_then_get_witness :
  let fields : gmap string json := {[ "title" := JStr (lit "renamed") ]} in
  let req := request "PUT" "iah_alice" "/functions/v1/ai-ideas/i1" []
                     (Ret (JObj fields)) in
  let req2 := request "GET" "iah_alice" "/functions/v1/ai-ideas/i1" []
                      no_body in
  let updated := fields ∪ idea "i1" "u-alice" "first" in
  (World.serve req start).1 = {| status := 200; body := DataBody updated |}
  ∧ (World.serve req2 (World.serve req start).2).1
    = {| status := 200; body := DataBody updated |}.
Proof.
  intros fields req req2 updated.
  assert ((World.serve req start).1
          = {| status := 200; body := DataBody updated |}) as Hupdated
    by (vm_compute; reflexivity).
  split; [exact Hupdated|].
  unfold World.serve.
  rewrite (put_then_get nat World.validate_api_key
             World.check_rate_limit World.db_defaults World.db_accepts
             World.db_select_many World.coerce_gt_500 req start alice 1%nat
             (JObj fields) updated req2 alice 2%nat
             eq_refl ltac:(as_alice) ltac:(as_alice) ltac:(as_alice)
             eq_refl eq_refl eq_refl Hupdated eq_refl eq_refl
             ltac:(as_alice) eq_refl ltac:(as_alice) ltac:(as_alice)).
  reflexivity.
Defined.

(** X19 at work: alice deletes [i1], which is archived already. *)
Lemma delete_again_witness :
  let row := archived_patch ∪ idea "i1" "u-alice" "first" in
  let st := {| ideas := [row; idea "i2" "u-bob" "second"];
               limiter := 1%nat |} in
  let req := request "DELETE" "iah_alice" "/functions/v1/ai-ideas/i1" []
                     no_body in
  List.filter (scoped (last_segment (pathname req)) (user_id alice))
              (ideas st) = [row]
  ∧ row !! "status" = Some (JStr (lit "archived"))
  ∧ ideas (World.serve req st).2 = ideas st.
Proof.
  intros row st req.
  assert (List.filter (scoped (last_segment (pathname req)) (user_id alice))
                      (ideas st) = [row]) as Hrow
    by (vm_compute; reflexivity).
  assert (row !! "status" = Some (JStr (lit "archived"))) as Hstatus
    by (vm_compute; reflexivity).
  split; [exact Hrow|]. split; [exact Hstatus|].
  destruct (delete_again nat World.validate_api_key
              World.check_rate_limit World.db_defaults World.db_accepts
              World.db_select_many World.coerce_gt_500 req st alice 2%nat
              row eq_refl ltac:(as_alice) ltac:(as_alice) ltac:(as_alice)
              eq_refl Hrow Hstatus) as [Hsame _].
  exact Hsame.
Defined.

(** X20 at work: the path of a single idea. *)
Lemma path_routing_witness :
  (47%N ∉ lit "i1")
  ∧ last_segment (lit "/functions/v1/ai-ideas" ++ 47%N :: lit "i1") = lit "i1".
Proof.
  assert (47%N ∉ lit "i1") as Hseg
    by (apply (bool_decide_unpack _); vm_compute; exact I).
  split; [exact Hseg|].
  destruct (path_routing (lit "/functions/v1/ai-ideas") (lit "i1") Hseg)
    as [Hlast _].
  exact Hlast.
Defined.
